(** * Lagged-return direction classifiers under walk-forward validation

    A shallow embedding of [logistic_lag_autocorr_patterns_app.py]:
    [load_data], [prepare_features], [select_model] and the evaluation loop
    of the script, over a small model of the pandas frames they work on.

    - Python floats are IEEE binary64 numbers: Rocq's primitive floats.
    - Python integers are [Z].
    - A pandas [DataFrame] is a row count together with an ordered list of
      named columns; a missing float is [nan], a missing date ([NaT]) is
      [None].
    - A raised exception is [Raise] with the name of its class. *)

From Stdlib Require Import ZArith Ascii String Floats.PrimFloat.
From Stdlib Require Floats.FloatAxioms.
From stdpp Require Import list strings pretty sorting sets.

Local Open Scope Z_scope.

(** ** Exceptions *)

Module Py.

(** The class name of a raised exception. *)
Definition exn := string.

Inductive result (A : Type) : Type :=
| Ok (a : A)
| Raise (e : exn).
Global Arguments Ok {A} a.
Global Arguments Raise {A} e.

Global Instance result_ret : MRet result := fun A a => Ok a.
Global Instance result_bind : MBind result := fun A B f m =>
  match m with
  | Ok a => f a
  | Raise e => Raise e
  end.

(** [for x in xs: acc = body(acc, x)], stopping at the first exception. *)
Fixpoint for_each {A S : Type} (body : S -> A -> result S) (xs : list A)
    (acc : S) : result S :=
  match xs with
  | [] => Ok acc
  | x :: xs' =>
      match body acc x with
      | Ok acc' => for_each body xs' acc'
      | Raise e => Raise e
      end
  end.

(** [str(z)] of an integer, as an f-string formats it. *)
Definition str (z : Z) : string := pretty z.

End Py.
Import Py.

(** ** Frames *)

(** [Timestamp]: a calendar day, counted in days from 1970-01-01. *)
Definition Timestamp := Z.

Inductive Series : Type :=
| FloatCol (xs : list float)
| IntCol (xs : list Z)
| DateCol (xs : list (option Timestamp)).

Record DataFrame : Type := mkFrame {
  nrows : nat;
  columns : list (string * Series)
}.

Definition series_len (s : Series) : nat :=
  match s with
  | FloatCol xs => length xs
  | IntCol xs => length xs
  | DateCol xs => length xs
  end.

(** [df[name]]: the first column of that name, [KeyError] when there is none. *)
Fixpoint get_col (cols : list (string * Series)) (name : string) : result Series :=
  match cols with
  | [] => Raise "KeyError"
  | (n, s) :: cols' => if decide (n = name) then Ok s else get_col cols' name
  end.

(** [df[name]] read as a column of floats.  The frames of this program hold
    floats in every column that is read this way; another dtype is outside
    the embedding and reported as [TypeError]. *)
Definition float_col (df : DataFrame) (name : string) : result (list float) :=
  match get_col (columns df) name with
  | Ok (FloatCol xs) => Ok xs
  | Ok _ => Raise "TypeError"
  | Raise e => Raise e
  end.

(** [df[name] = s]: overwrite the column in place when it exists, else append
    it as the last column. *)
Fixpoint set_cols (cols : list (string * Series)) (name : string) (s : Series)
    : list (string * Series) :=
  match cols with
  | [] => [(name, s)]
  | (n, s') :: cols' =>
      if decide (n = name) then (n, s) :: cols' else (n, s') :: set_cols cols' name s
  end.

Definition set_col (df : DataFrame) (name : string) (s : Series) : DataFrame :=
  mkFrame (nrows df) (set_cols (columns df) name s).

(** [Series.shift(periods)] on floats: values move [periods] rows down
    (up when negative); the vacated rows hold [nan]. *)
Definition shift (periods : Z) (xs : list float) : list float :=
  let n := length xs in
  if decide (periods < 0) then
    let k := Z.to_nat (- periods) in
    drop k xs ++ replicate (k `min` n)%nat nan
  else
    let k := Z.to_nat periods in
    replicate (k `min` n)%nat nan ++ take (n - k)%nat xs.

(** [Series.pct_change()]: [data / data.shift(1) - 1].  pandas before 3.0
    first pads a missing value with the last one above it; the statements
    about returns below are for tables without missing prices, where there
    is nothing to pad. *)
Definition pct_change (xs : list float) : list float :=
  zip_with (fun cur prev => (cur / prev - 1)%float) xs (shift 1 xs).

(** [Series.notna()], row by row: a float is missing when it is [nan], a
    date when it is [NaT]; integers have no missing value. *)
Definition notna (s : Series) : list bool :=
  match s with
  | FloatCol xs => (fun x => negb (is_nan x)) <$> xs
  | IntCol xs => (fun _ => true) <$> xs
  | DateCol xs => (fun d => match d with Some _ => true | None => false end) <$> xs
  end.

(** The rows [dropna] keeps: those with no missing value in any column. *)
Definition keep_mask (df : DataFrame) : list bool :=
  foldr (fun c m => zip_with andb (notna c.2) m) (replicate (nrows df) true)
        (columns df).

(** Boolean-mask selection [xs[mask]]. *)
Fixpoint select {A : Type} (mask : list bool) (xs : list A) : list A :=
  match mask, xs with
  | b :: mask', x :: xs' => if b then x :: select mask' xs' else select mask' xs'
  | _, _ => []
  end.

Definition select_series (mask : list bool) (s : Series) : Series :=
  match s with
  | FloatCol xs => FloatCol (select mask xs)
  | IntCol xs => IntCol (select mask xs)
  | DateCol xs => DateCol (select mask xs)
  end.

(** [df.dropna().reset_index(drop=True)]: the positional index is implicit,
    so resetting it changes nothing. *)
Definition dropna (df : DataFrame) : DataFrame :=
  let mask := keep_mask df in
  mkFrame (length (filter (fun b => b = true) mask))
          (prod_map id (select_series mask) <$> columns df).

(** [df[features].values]: the rows of the selected columns, in the order of
    [features]. *)
Definition row_values (df : DataFrame) (features : list string) (i : nat)
    : result (list float) :=
  for_each (fun row name =>
              xs ← float_col df name;
              match xs !! i with
              | Some x => Ok (row ++ [x])
              | None => Raise "IndexError"
              end) features [].

Definition values (df : DataFrame) (features : list string)
    : result (list (list float)) :=
  for_each (fun rows i => row ← row_values df features i; Ok (rows ++ [row]))
           (seq 0 (nrows df)) [].

(** ** prepare_features (lines 54-62) *)

Definition goog_lag (lag : Z) : string := "goog_lag" +:+ str lag.
Definition sp_lag (lag : Z) : string := "sp_lag" +:+ str lag.

(** One pass of the loop over [lags] (lines 57-58). *)
Definition add_lag (df : DataFrame) (lag : Z) : result DataFrame :=
  g ← float_col df "goog_ret";
  let df1 := set_col df (goog_lag lag) (FloatCol (shift (- lag) g)) in
  s ← float_col df1 "sp_ret";
  Ok (set_col df1 (sp_lag lag) (FloatCol (shift (- lag) s))).

Definition up (x : float) : Z := if (0 <=? x)%float then 1 else 0.

Definition prepare_features (df : DataFrame) (lags : list Z)
    : result (DataFrame * list string) :=
  df1 ← for_each add_lag lags df;
  g ← float_col df1 "goog_ret";
  let df2 := set_col df1 "goog_up" (IntCol (up <$> g)) in
  let df3 := dropna df2 in
  let features := (goog_lag <$> lags) ++ (sp_lag <$> lags) in
  Ok (df3, features).

(** ** load_data (lines 38-52) *)

(** *** [pd.to_datetime(_, format='%d/%m/%Y')] *)

Definition digit (c : ascii) : option Z :=
  let n := Z.of_nat (nat_of_ascii c) in
  if decide (48 <= n <= 57) then Some (n - 48) else None.

Fixpoint number_from (acc : Z) (s : string) : option Z :=
  match s with
  | EmptyString => Some acc
  | String c s' =>
      match digit c with
      | Some d => number_from (10 * acc + d) s'
      | None => None
      end
  end.

(** A non-empty run of decimal digits of a permitted length. *)
Definition number (lens : list nat) (s : string) : option Z :=
  if decide (String.length s ∈ lens) then number_from 0 s else None.

Fixpoint fields (sep : ascii) (s : string) : list string :=
  match s with
  | EmptyString => [EmptyString]
  | String c s' =>
      if decide (c = sep) then EmptyString :: fields sep s'
      else match fields sep s' with
           | w :: ws => String c w :: ws
           | [] => [String c EmptyString]
           end
  end.

Definition is_leap (y : Z) : bool :=
  bool_decide (y mod 4 = 0 /\ (y mod 100 <> 0 \/ y mod 400 = 0)).

Definition days_in_month (y m : Z) : Z :=
  if decide (m = 2) then (if is_leap y then 29 else 28)
  else if decide (m ∈ [4; 6; 9; 11]) then 30 else 31.

(** Days from 1970-01-01 to the given day of the proleptic Gregorian calendar. *)
Definition days_from_civil (y m d : Z) : Z :=
  let y' := if decide (m <= 2) then y - 1 else y in
  let era := y' / 400 in
  let yoe := y' - era * 400 in
  let doy := (153 * (m + (if decide (2 < m) then -3 else 9)) + 2) / 5 + d - 1 in
  let doe := yoe * 365 + yoe / 4 - yoe / 100 + doy in
  era * 146097 + doe - 719468.

(** Day and month take one or two digits, the year four; the text must be a
    day of the calendar, else [ValueError]. *)
Definition to_datetime (s : string) : result Timestamp :=
  match fields "/" s with
  | [ds; ms; ys] =>
      match number [1; 2]%nat ds, number [1; 2]%nat ms, number [4%nat] ys with
      | Some d, Some m, Some y =>
          if decide (1 <= y /\ 1 <= m <= 12 /\ 1 <= d <= days_in_month y m)
          then Ok (days_from_civil y m d)
          else Raise "ValueError"
      | _, _, _ => Raise "ValueError"
      end
  | _ => Raise "ValueError"
  end.

(** The texts that pandas reads as a missing date whatever the format. *)
Definition nat_strings : list string := ["NaT"; "nat"; "NAT"; "nan"; "NaN"; "NAN"].

(** One cell of the column that line 47 converts: a missing cell, an empty
    text and the texts of [nat_strings] become [NaT] and raise nothing; any
    other text must be a day in the format. *)
Definition to_datetime_cell (c : option string) : result (option Timestamp) :=
  match c with
  | None => Ok None
  | Some text =>
      if decide (text = "" \/ text ∈ nat_strings) then Ok None
      else t ← to_datetime text; Ok (Some t)
  end.

(** *** The two price tables

    Lines 39-44 read each file into a frame with the columns [Date] and the
    adjusted close (float, decimal comma normalised).  The embedding starts
    from these two tables, one row per line of the file.  [Date] is a column
    of text as [read_csv] returns it: a cell holds the text of the file, or
    is missing ([None]) where [read_csv] found one of its markers of a
    missing value (an empty cell, NA, n/a, ...).  A [Date] column that
    [read_csv] reads as numbers, because none of its cells holds text that
    is not a number, is outside the embedding. *)
Definition PriceTable : Type := list (option string * float).

(** A row of the joined frame: [Date], [goog_price], [sp_price]. *)
Definition Joined (D : Type) : Type := D * (float * float).

(** [pd.merge(goog, sp500, on="Date")]: inner join on the cell of [Date], in
    the order of the left keys, every left row paired with every right row of
    the same key; pandas joins a missing key with a missing key. *)
Definition merge (goog sp500 : PriceTable) : list (Joined (option string)) :=
  g ← goog; s ← sp500;
  if decide (g.1 = s.1) then [(g.1, (g.2, s.2))] else [].

(** Line 47: the [Date] column converted row by row; the first text that is
    neither a day nor read as [NaT] raises. *)
Fixpoint parse_dates (rows : list (Joined (option string)))
    : result (list (Joined (option Timestamp))) :=
  match rows with
  | [] => Ok []
  | r :: rows' =>
      match to_datetime_cell r.1 with
      | Ok t =>
          match parse_dates rows' with
          | Ok out => Ok ((t, r.2) :: out)
          | Raise e => Raise e
          end
      | Raise e => Raise e
      end
  end.

(** [a] stands before [b] when its date is not earlier (most recent first);
    a row without a date stands after every row that has one. *)
Definition date_desc (a b : Joined (option Timestamp)) : Prop :=
  match a.1, b.1 with
  | _, None => True
  | None, Some _ => False
  | Some x, Some y => y <= x
  end.

Global Instance date_desc_dec a b : Decision (date_desc a b).
Proof. unfold date_desc. destruct a.1, b.1; apply _. Defined.

(** [df.sort_values("Date", ascending=False).reset_index(drop=True)]: [NaT]
    comes last.  On distinct dates every sorting algorithm returns the same
    rows with a date, in the same places. *)
Definition sort_values_desc (rows : list (Joined (option Timestamp)))
    : list (Joined (option Timestamp)) :=
  merge_sort date_desc rows.

Definition frame_of_joined (rows : list (Joined (option Timestamp))) : DataFrame :=
  mkFrame (length rows)
    [("Date", DateCol (rows.*1));
     ("goog_price", FloatCol (rows.*2.*1));
     ("sp_price", FloatCol (rows.*2.*2))].

Definition load_data (goog sp500 : PriceTable) : result DataFrame :=
  dated ← parse_dates (merge goog sp500);
  let df := frame_of_joined (sort_values_desc dated) in
  g ← float_col df "goog_price";
  let df1 := set_col df "goog_ret" (FloatCol (pct_change g)) in
  s ← float_col df1 "sp_price";
  let df2 := set_col df1 "sp_ret" (FloatCol (pct_change s)) in
  Ok (dropna df2).

(** ** The walk-forward splitter (lines 115, 121) *)

(** [range(start, stop, step)] for a positive step. *)
Definition py_range (start stop step : Z) : list Z :=
  (fun i => start + Z.of_nat i * step)
    <$> seq 0 (Z.to_nat ((stop - start + step - 1) / step)).

(** [indices[a:b]] for bounds [0 <= a <= b]. *)
Definition slice {A : Type} (a b : Z) (xs : list A) : list A :=
  take (Z.to_nat (b - a)) (drop (Z.to_nat a) xs).

Record Fold : Type := mkFold {
  train_index : list Z;
  test_index : list Z
}.

(** Modelled from the spec: [TimeSeriesSplit] is scikit-learn's and is not
    under src/; the script only constructs it with [n_splits=splits] (line
    115) and iterates [split(X)] (line 121).  Section 4.3 of the spec gives
    the contract: expanding window, contiguous test block right after the
    training prefix, near-equal partition of the samples, rejection when
    [n_folds < 2] or [n_samples <= n_folds]; the arithmetic below is the
    library's, [n_splits + 1] near-equal blocks of which the last [n_splits]
    are the test blocks.  The library signals both rejections with
    [ValueError], which the spec calls [InvalidSplitError]: the first when
    the splitter is constructed, the second when it is first iterated. *)
Definition TimeSeriesSplit (n_splits : Z) : result Z :=
  if decide (n_splits <= 1) then Raise "ValueError" else Ok n_splits.

Definition split (n_splits n_samples : Z) : result (list Fold) :=
  let n_folds := n_splits + 1 in
  let test_size := n_samples / n_folds in
  if decide (n_folds > n_samples) then Raise "ValueError"
  else
    let indices := seqZ 0 n_samples in
    let test_starts :=
      py_range (n_samples - n_splits * test_size) n_samples test_size in
    Ok ((fun test_start =>
           mkFold (slice 0 test_start indices)
                  (slice test_start (test_start + test_size) indices))
          <$> test_starts).

(** [TimeSeriesSplit(n_splits=k).split(X)] for [N] samples, as one call. *)
Definition FoldSplitter_split (N k : Z) : result (list Fold) :=
  tscv ← TimeSeriesSplit k; split tscv N.

(** ** Classifiers and metrics *)

(** The three classes [select_model] chooses from. *)
Inductive Estimator : Type :=
| LogisticRegression
| DecisionTreeClassifier
| RandomForestClassifier.

Definition Matrix : Type := list (list float).

(** What line 127 passes on as [y_proba]: a probability when the model has
    [predict_proba], else the hard prediction itself. *)
Inductive Score : Type :=
| Proba (p : float)
| Label (y : Z).

(** scikit-learn, numpy and the frame statistics are not part of the source:
    the script is modelled over any implementation of what it calls.
    - [fit cls random_state rng X y]: what fitting an estimator of class
      [cls], constructed with [random_state], learns from [(X, y)], drawing
      on numpy's process-wide random state [rng] when it needs randomness;
    - [predict_proba_1 m X] is [m.predict_proba(X)[:, 1]]. *)
Class Sklearn : Type := {
  learned : Type;
  rng : Type;
  fit : Estimator -> option Z -> rng -> Matrix -> list Z -> result (learned * rng);
  predict : learned -> Matrix -> result (list Z);
  predict_proba_1 : learned -> Matrix -> result (list float);
  accuracy_score : list Z -> list Z -> result float;
  precision_score : list Z -> list Z -> result float;
  recall_score : list Z -> list Z -> result float;
  f1_score : list Z -> list Z -> result float;
  roc_auc_score : list Z -> list Score -> result float;
  roc_curve : list Z -> list Score -> result (list (float * float));
  mean : list float -> float;
  round3 : float -> float
}.

(** [hasattr(model, "predict_proba")]: all three classes have the method. *)
Definition has_predict_proba (c : Estimator) : bool :=
  match c with
  | LogisticRegression => true
  | DecisionTreeClassifier => true
  | RandomForestClassifier => true
  end.

(** The sidebar settings (lines 33-35). *)
Record Config : Type := mkConfig {
  lags : list Z;
  model_type : string;
  splits : Z
}.

(** One row of [metrics] (lines 129-135); also the averaged table. *)
Record Metrics : Type := mkMetrics {
  Accuracy : float;
  Precision : float;
  Recall : float;
  F1_Score : float;
  AUC : float
}.

(** [X[index]], [y[index]]: numpy selection by an integer array; a negative
    index counts from the end, an index out of range raises. *)
Fixpoint take_rows {A : Type} (xs : list A) (index : list Z) : result (list A) :=
  match index with
  | [] => Ok []
  | i :: index' =>
      let j := if decide (i < 0) then i + Z.of_nat (length xs) else i in
      match (if decide (0 <= j) then xs !! Z.to_nat j else None) with
      | Some x =>
          match take_rows xs index' with
          | Ok out => Ok (x :: out)
          | Raise e => Raise e
          end
      | None => Raise "IndexError"
      end
  end.

(** [df[name].values] of the integer column the label is stored in. *)
Definition int_col (df : DataFrame) (name : string) : result (list Z) :=
  match get_col (columns df) name with
  | Ok (IntCol xs) => Ok xs
  | Ok _ => Raise "TypeError"
  | Raise e => Raise e
  end.

Section Evaluation.

Context {sk : Sklearn}.

(** *** Model instances

    An estimator is a mutable object: [fit] stores what it learned in the
    instance it is called on.  The instances live in a heap addressed by
    position; a Python variable holds an address, or [None]. *)
Record Instance : Type := mkInstance {
  cls : Estimator;
  random_state : option Z;
  attrs : option learned
}.

(** The calls that create or fit an instance, in program order. *)
Inductive Event : Type :=
| New (a : nat)
| FitCall (a : nat) (n_train : nat).

Record World : Type := mkWorld {
  heap : list Instance;
  global_rng : rng;
  calls : list Event
}.

(** A statement: it returns or raises, and leaves a world behind. *)
Definition M (A : Type) : Type := World -> result A * World.

Definition ret {A : Type} (a : A) : M A := fun w => (Ok a, w).

Definition bind {A B : Type} (m : M A) (f : A -> M B) : M B := fun w =>
  match m w with
  | (Ok a, w') => f a w'
  | (Raise e, w') => (Raise e, w')
  end.

(** A pure computation run as a statement. *)
Definition lift {A : Type} (r : result A) : M A := fun w => (r, w).

Notation "x <- m ;; k" := (bind m (fun x => k))
  (at level 100, m at next level, right associativity).

(** [for x in xs: acc = body(acc, x)] with effects. *)
Fixpoint for_loop {A S : Type} (body : S -> A -> M S) (xs : list A) (acc : S) : M S :=
  match xs with
  | [] => ret acc
  | x :: xs' => acc' <- body acc x ;; for_loop body xs' acc'
  end.

(** [Cls()]: a new instance with default arguments, so no [random_state]. *)
Definition construct (c : Estimator) : M (option nat) := fun w =>
  let a := length (heap w) in
  (Ok (Some a),
   mkWorld (heap w ++ [mkInstance c None None]) (global_rng w) (calls w ++ [New a])).

(** Lines 64-70; a name outside the three falls through and returns [None]. *)
Definition select_model (name : string) : M (option nat) :=
  if decide (name = "Logistic Regression") then construct LogisticRegression
  else if decide (name = "Decision Tree") then construct DecisionTreeClassifier
  else if decide (name = "Random Forest") then construct RandomForestClassifier
  else ret None.

(** Attribute access on what a variable holds; [None] has no methods. *)
Definition deref (model : option nat) : M (nat * Instance) := fun w =>
  match model with
  | None => (Raise "AttributeError", w)
  | Some a =>
      match heap w !! a with
      | Some obj => (Ok (a, obj), w)
      | None => (Raise "ReferenceError", w)
      end
  end.

(** [model.fit(X, y)]: refits the instance in place. *)
Definition model_fit (model : option nat) (X : Matrix) (y : list Z) : M unit :=
  ao <- deref model ;;
  fun w =>
    let (a, obj) := ao : nat * Instance in
    let log := calls w ++ [FitCall a (length X)] in
    match fit (cls obj) (random_state obj) (global_rng w) X y with
    | Ok (l, r) =>
        (Ok (), mkWorld (<[a := mkInstance (cls obj) (random_state obj) (Some l)]> (heap w)) r log)
    | Raise e => (Raise e, mkWorld (heap w) (global_rng w) log)
    end.

Definition fitted (obj : Instance) : M learned :=
  match attrs obj with
  | Some l => ret l
  | None => lift (Raise "NotFittedError")
  end.

(** [model.predict(X)]. *)
Definition model_predict (model : option nat) (X : Matrix) : M (list Z) :=
  ao <- deref model ;; l <- fitted ao.2 ;; lift (predict l X).

(** Lines 127 and 158: the probability of class 1, or the hard prediction
    when the model has no [predict_proba]. *)
Definition model_scores (model : option nat) (X : Matrix) (y_pred : M (list Z))
    : M (list Score) :=
  match model with
  | None => p <- y_pred ;; ret (Label <$> p)
  | Some _ =>
      ao <- deref model ;;
      if has_predict_proba (cls ao.2)
      then l <- fitted ao.2 ;; p <- lift (predict_proba_1 l X) ;; ret (Proba <$> p)
      else p <- y_pred ;; ret (Label <$> p)
  end.

(** What the run hands to the page. *)
Record Report : Type := mkReport {
  df_metrics : Metrics;
  preds_df : list (Z * Z * Score);
  roc : list (float * float)
}.

(** The body of the loop over the folds (lines 122-142). *)
Definition fold_step (model : option nat) (X : Matrix) (y : list Z)
    (acc : list Metrics * list (Z * Z * Score)) (fold : Fold)
    : M (list Metrics * list (Z * Z * Score)) :=
  X_train <- lift (take_rows X (train_index fold)) ;;
  X_test <- lift (take_rows X (test_index fold)) ;;
  y_train <- lift (take_rows y (train_index fold)) ;;
  y_test <- lift (take_rows y (test_index fold)) ;;
  _ <- model_fit model X_train y_train ;;
  y_pred <- model_predict model X_test ;;
  y_proba <- model_scores model X_test (ret y_pred) ;;
  acc_ <- lift (accuracy_score y_test y_pred) ;;
  prec <- lift (precision_score y_test y_pred) ;;
  rec <- lift (recall_score y_test y_pred) ;;
  f1 <- lift (f1_score y_test y_pred) ;;
  auc <- lift (roc_auc_score y_test y_proba) ;;
  ret (acc.1 ++ [mkMetrics acc_ prec rec f1 auc],
       acc.2 ++ zip (zip y_test y_pred) y_proba).

(** [pd.DataFrame(metrics).mean().round(3)]. *)
Definition mean_round (metrics : list Metrics) : Metrics :=
  mkMetrics (round3 (mean (Accuracy <$> metrics)))
            (round3 (mean (Precision <$> metrics)))
            (round3 (mean (Recall <$> metrics)))
            (round3 (mean (F1_Score <$> metrics)))
            (round3 (mean (AUC <$> metrics))).

(** The run of the script from line 111 to line 159 on the frame that
    [load_data] returned; the statistics and charts around it only read
    the data. *)
Definition evaluate (cfg : Config) (df_raw : DataFrame) : M Report :=
  lagged <- lift (prepare_features df_raw (lags cfg)) ;;
  X <- lift (values lagged.1 lagged.2) ;;
  y <- lift (int_col lagged.1 "goog_up") ;;
  tscv <- lift (TimeSeriesSplit (splits cfg)) ;;
  model <- select_model (model_type cfg) ;;
  folds <- lift (split tscv (Z.of_nat (length X))) ;;
  out <- for_loop (fold_step model X y) folds ([], []) ;;
  _ <- model_fit model X y ;;
  proba <- model_scores model X (model_predict model X) ;;
  curve <- lift (roc_curve y proba) ;;
  ret (mkReport (mean_round out.1) out.2 curve).

(** The world a process starts in: no model instance yet, the random state
    as the operating system seeded it. *)
Definition start (r : rng) : World := mkWorld [] r [].

End Evaluation.

(** ** A small implementation of the interface

    A majority-vote linear learner, trees of one split and counting
    metrics, to run the script on concrete data.  It keeps the behaviour of
    the libraries that the claims turn on: the linear learner is
    deterministic and rejects a training set with one class; a tree looks
    for the feature and threshold that separate the classes of its training
    set and, built without [random_state], settles a tie between two
    features that separate them equally well with numpy's process-wide
    random state, as scikit-learn's tree does when it visits the features
    in random order; [predict_proba] has one column per class seen in
    training; [roc_auc_score] rejects a test set with one class.  A
    training set that no single split separates is outside what it keeps:
    a forest is treated as one tree, and a tree that would need a second
    split as a leaf. *)
Module Majority.

Definition of_count (n : nat) : float :=
  Nat.iter n (fun x => x + 1)%float 0%float.

Definition ratio (a b : nat) : float :=
  if decide (b = 0%nat) then 0%float else (of_count a / of_count b)%float.

Definition count (P : Z -> Z -> bool) (y_true y_pred : list Z) : nat :=
  length (filter (fun p => P p.1 p.2 = true) (zip y_true y_pred)).

Definition tp := count (fun t p => bool_decide (t = 1 /\ p = 1)).
Definition fp := count (fun t p => bool_decide (t <> 1 /\ p = 1)).
Definition fn := count (fun t p => bool_decide (t = 1 /\ p <> 1)).

Definition classes (y : list Z) : list Z := remove_dups y.

(** What a fit learns: the classes it saw, and either one class for every
    row or a split on one feature, with the class at or below the threshold
    and the class above it. *)
Inductive Rule : Type :=
| Leaf (seen : list Z) (winner : Z)
| Split (seen : list Z) (feature : nat) (threshold : float) (below above : Z).

Definition seen_by (r : Rule) : list Z :=
  match r with
  | Leaf seen _ => seen
  | Split seen _ _ _ _ => seen
  end.

(** The random state is a tape of coin flips. *)
Definition flip (tape : list bool) : bool * list bool :=
  match tape with
  | [] => (false, [])
  | b :: tape' => (b, tape')
  end.

Definition ones (y : list Z) : nat := length (filter (fun c => c = 1) y).

Definition fmax (xs : list float) : float :=
  foldr (fun x m => if (m <? x)%float then x else m) neg_infinity xs.

Definition fmin (xs : list float) : float :=
  foldr (fun x m => if (x <? m)%float then x else m) infinity xs.

(** The split on feature [j] that separates the rows of class 1 from the
    others, when there is one; the threshold is midway between the two
    groups. *)
Definition stump (X : Matrix) (y : list Z) (j : nat) : option Rule :=
  let xs := (fun row => default nan (row !! j)) <$> X in
  let pos := (filter (fun p => p.2 = 1) (zip xs y)).*1 in
  let neg := (filter (fun p => p.2 <> 1) (zip xs y)).*1 in
  if (fmax neg <? fmin pos)%float
  then Some (Split (classes y) j (fmax neg / 2 + fmin pos / 2)%float 0 1)
  else if (fmax pos <? fmin neg)%float
  then Some (Split (classes y) j (fmax pos / 2 + fmin neg / 2)%float 1 0)
  else None.

Definition fit (c : Estimator) (random_state : option Z) (tape : list bool)
    (X : Matrix) (y : list Z) : result (Rule * list bool) :=
  if decide (X = []) then Raise "ValueError"
  else
    let n1 := ones y in
    let n0 := (length y - n1)%nat in
    match c with
    | LogisticRegression =>
        if decide (length (classes y) < 2)%nat then Raise "ValueError"
        else Ok (Leaf (classes y) (if decide (n0 <= n1)%nat then 1 else 0), tape)
    | _ =>
        if decide (length (classes y) < 2)%nat
        then Ok (Leaf (classes y) (default 0 (head y)), tape)
        else
          match omap (stump X y) (seq 0 (length (default [] (head X)))) with
          | [] => Ok (Leaf (classes y) (if decide (n0 < n1)%nat then 1 else 0), tape)
          | [r] => Ok (r, tape)
          | r :: rs =>
              match random_state with
              | Some seed => Ok (if decide (seed mod 2 = 0) then r else default r (last rs), tape)
              | None => let (b, tape') := flip tape in
                        Ok (if b then default r (last rs) else r, tape')
              end
          end
    end.

Definition predict_row (r : Rule) (row : list float) : result Z :=
  match r with
  | Leaf _ winner => Ok winner
  | Split _ j threshold below above =>
      match row !! j with
      | Some x => Ok (if (x <=? threshold)%float then below else above)
      | None => Raise "ValueError"
      end
  end.

Fixpoint predict (r : Rule) (X : Matrix) : result (list Z) :=
  match X with
  | [] => Ok []
  | row :: X' =>
      match predict_row r row with
      | Ok c =>
          match predict r X' with
          | Ok out => Ok (c :: out)
          | Raise e => Raise e
          end
      | Raise e => Raise e
      end
  end.

Definition predict_proba_1 (r : Rule) (X : Matrix) : result (list float) :=
  if decide (length (seen_by r) < 2)%nat then Raise "IndexError"
  else
    match predict r X with
    | Ok p => Ok ((fun c => if decide (c = 1) then 1%float else 0%float) <$> p)
    | Raise e => Raise e
    end.

Definition accuracy_score (y_true y_pred : list Z) : result float :=
  Ok (ratio (count (fun t p => bool_decide (t = p)) y_true y_pred) (length y_true)).

Definition precision_score (y_true y_pred : list Z) : result float :=
  Ok (ratio (tp y_true y_pred) (tp y_true y_pred + fp y_true y_pred)).

Definition recall_score (y_true y_pred : list Z) : result float :=
  Ok (ratio (tp y_true y_pred) (tp y_true y_pred + fn y_true y_pred)).

Definition f1_score (y_true y_pred : list Z) : result float :=
  Ok (ratio (2 * tp y_true y_pred)
            (2 * tp y_true y_pred + fp y_true y_pred + fn y_true y_pred)).

Definition score_value (s : Score) : float :=
  match s with
  | Proba p => p
  | Label y => if decide (y = 1) then 1%float else 0%float
  end.

(** Twice the number of (positive, negative) pairs ranked correctly, a tie
    counting for half a pair. *)
Definition ranked (pos neg : list float) : nat :=
  list_sum ((fun p => list_sum ((fun n =>
    if (n <? p)%float then 2 else if (n =? p)%float then 1 else 0)%nat <$> neg)) <$> pos).

Definition roc_auc_score (y_true : list Z) (y_score : list Score) : result float :=
  if decide (length (classes y_true) = 2%nat) then
    let scored := zip y_true (score_value <$> y_score) in
    let pos := (filter (fun p => p.1 = 1) scored).*2 in
    let neg := (filter (fun p => p.1 <> 1) scored).*2 in
    Ok (ratio (ranked pos neg) (2 * length pos * length neg))
  else Raise "ValueError".

Definition roc_curve (y_true : list Z) (y_score : list Score)
    : result (list (float * float)) :=
  Ok [(0%float, 0%float); (1%float, 1%float)].

Definition mean (xs : list float) : float :=
  (foldl PrimFloat.add 0 xs / of_count (length xs))%float.

(** [rint(x * 1000) / 1000] for [0 <= x < 2^41]. *)
Definition round3 (x : float) : float :=
  ((x * 1000 + 4503599627370496 - 4503599627370496) / 1000)%float.

Definition sklearn : Sklearn :=
  Build_Sklearn Rule (list bool) fit predict predict_proba_1 accuracy_score
    precision_score recall_score f1_score roc_auc_score roc_curve mean round3.

End Majority.

(** ** Reading the price files (lines 39-44) *)

(** [str.replace(',', '.')]: every comma becomes a period. *)
Fixpoint replace_comma (s : string) : string :=
  match s with
  | EmptyString => EmptyString
  | String c s' =>
      String (if decide (c = ","%char) then "."%char else c) (replace_comma s')
  end.

(** A table as [read_csv] returns it at line 39 or 40, restricted to
    [Date] and [Adj.Close]: either cell holds its text, or is missing
    ([None]) where [read_csv] found one of its markers of a missing value.
    (A price column that [read_csv] read as numbers holds, for line 44, the
    text that [astype(str)] prints for each number.) *)
Definition RawTable : Type := list (option string * option string).

Section Reading.

(** [float(text)], Python's own reading of a float: not part of the source. *)
Variable float_of_string : string -> result float.

(** Line 44 on one cell, [astype(str).str.replace(',', '.').astype(float)]:
    a missing price stays missing and raises nothing; a text has its commas
    replaced and is then read as a float. *)
Definition read_price (cell : option string) : result float :=
  match cell with
  | None => Ok nan
  | Some text => float_of_string (replace_comma text)
  end.

(** Lines 42-44 on one table: the price column, and only it, is converted
    cell by cell; the first text that is no float raises. *)
Fixpoint read_prices (raw : RawTable) : result PriceTable :=
  match raw with
  | [] => Ok []
  | r :: raw' =>
      match read_price r.2 with
      | Ok x =>
          match read_prices raw' with
          | Ok out => Ok ((r.1, x) :: out)
          | Raise e => Raise e
          end
      | Raise e => Raise e
      end
  end.

(** [load_data] from the two files on: the loop of line 41 converts the
    first table, then the second, before anything is joined. *)
Definition load_files (gfile sfile : RawTable) : result DataFrame :=
  goog ← read_prices gfile;
  sp500 ← read_prices sfile;
  load_data goog sp500.

End Reading.

(** ** The calendar columns (lines 96-97) *)

(** [df["Date"].dt]: the accessor exists on a column of dates only. *)
Definition date_col (df : DataFrame) : result (list (option Timestamp)) :=
  match get_col (columns df) "Date" with
  | Ok (DateCol xs) => Ok xs
  | Ok _ => Raise "AttributeError"
  | Raise e => Raise e
  end.

(** [Timestamp.dayofweek]: Monday is 0; day 0 of the count, 1970-01-01, was
    a Thursday. *)
Definition dayofweek (t : Timestamp) : Z := (t + 3) mod 7.

(** [Timestamp.month] in the proleptic Gregorian calendar, the month of the
    day that [days_from_civil] counts to. *)
Definition month (t : Timestamp) : Z :=
  let z := t + 719468 in
  let era := z / 146097 in
  let doe := z - era * 146097 in
  let yoe := (doe - doe / 1460 + doe / 36524 - doe / 146096) / 365 in
  let doy := doe - (365 * yoe + yoe / 4 - yoe / 100) in
  let mp := (5 * doy + 2) / 153 in
  if decide (mp < 10) then mp + 3 else mp - 9.

(** A small non-negative integer as a float. *)
Definition float_of_Z (z : Z) : float :=
  Nat.iter (Z.to_nat z) (fun x => x + 1)%float 0%float.

(** [Series.dt.dayofweek], [Series.dt.month]: a column of integers, or of
    floats with [nan] for the missing dates once a date is missing. *)
Definition dt_field (f : Timestamp -> Z) (d : list (option Timestamp)) : Series :=
  match mapM id d with
  | Some days => IntCol (f <$> days)
  | None =>
      FloatCol ((fun o => match o with
                          | Some t => float_of_Z (f t)
                          | None => nan
                          end) <$> d)
  end.

(** Lines 96-97: two columns computed from [Date] and stored in the frame
    that [load_data] returned, before [prepare_features] is called on it. *)
Definition add_calendar (df : DataFrame) : result DataFrame :=
  d ← date_col df;
  let df1 := set_col df "Weekday" (dt_field dayofweek d) in
  d1 ← date_col df1;
  Ok (set_col df1 "Month" (dt_field month d1)).

(** * Vocabulary of the statements *)

(** ** Frames *)

(** Every column has as many entries as the frame has rows. *)
Definition well_formed (df : DataFrame) : Prop :=
  Forall (fun c => series_len c.2 = nrows df) (columns df).

(** No cell of the frame is missing. *)
Definition complete (df : DataFrame) : Prop :=
  Forall (fun c => Forall (fun b => b = true) (notna c.2)) (columns df).

(** The float stored in column [name] at row [i], if there is one. *)
Definition cell (df : DataFrame) (name : string) (i : nat) : option float :=
  match float_col df name with
  | Ok xs => xs !! i
  | Raise _ => None
  end.

(** [max(lags)] for positive lags. *)
Definition max_lag (lags : list Z) : Z := foldr Z.max 0 lags.

(** The frame after the loop of lines 56-58 has run over the lags [K]. *)
Definition lagged (df0 : DataFrame) (g s : list float) (K : list Z) (df : DataFrame)
    : Prop :=
  nrows df = nrows df0 /\
  float_col df "goog_ret" = Ok g /\
  float_col df "sp_ret" = Ok s /\
  (forall k, k ∈ K ->
     float_col df (goog_lag k) = Ok (shift (- k) g) /\
     float_col df (sp_lag k) = Ok (shift (- k) s)) /\
  (forall c, c ∈ columns df ->
     c ∈ columns df0 \/
     exists k, k ∈ K /\ (c = (goog_lag k, FloatCol (shift (- k) g)) \/
                        c = (sp_lag k, FloatCol (shift (- k) s)))).

(** The frame on which line 60 calls [dropna]. *)
Definition with_label (df1 : DataFrame) (g : list float) : DataFrame :=
  set_col df1 "goog_up" (IntCol (up <$> g)).

(** The order the spec words for the feature names: target lags ascending,
    then index lags ascending, whatever the order of [lags]. *)
Definition ascending_feature_names (lags : list Z) : list string :=
  let sorted := merge_sort Z.le lags in
  (goog_lag <$> sorted) ++ (sp_lag <$> sorted).

(** The position in [mask] of its [i]-th [true]. *)
Fixpoint nth_true (mask : list bool) (i : nat) : option nat :=
  match mask with
  | [] => None
  | b :: mask' =>
      if b then match i with
                | O => Some O
                | S i' => S <$> nth_true mask' i'
                end
      else S <$> nth_true mask' i
  end.

(** ** Folds *)

(** The folds of an accepted split, block by block. *)
Definition nth_fold (N k : Z) (i : nat) : Fold :=
  let test_size := N / (k + 1) in
  let test_start := N - k * test_size + Z.of_nat i * test_size in
  mkFold (seqZ 0 test_start) (seqZ test_start test_size).

(** ** Aligned records *)

(** Row [i] of the frame [load_data] returns, read across its five columns. *)
Record AlignedRecord : Type := mkAligned {
  Date : Timestamp;
  goog_price : float;
  sp_price : float;
  goog_ret : float;
  sp_ret : float
}.

(** The day stored in column [Date] at row [i], if the row has one. *)
Definition date_at (df : DataFrame) (i : nat) : option Timestamp :=
  match get_col (columns df) "Date" with
  | Ok (DateCol xs) => mjoin (xs !! i)
  | _ => None
  end.

Definition aligned_record (df : DataFrame) (i : nat) : option AlignedRecord :=
  d ← date_at df i;
  gp ← cell df "goog_price" i;
  sp ← cell df "sp_price" i;
  gr ← cell df "goog_ret" i;
  sr ← cell df "sp_ret" i;
  Some (mkAligned d gp sp gr sr).

(** Day [d] is in both tables, under one text of [Date], with the prices
    [g] and [s]. *)
Definition common_day (goog sp500 : PriceTable) (d : Timestamp) (g s : float) : Prop :=
  exists text,
    (Some text, g) ∈ goog /\ (Some text, s) ∈ sp500 /\ to_datetime text = Ok d.

(** No two of the texts are the same day. *)
Fixpoint distinct_days (texts : list string) : Prop :=
  match texts with
  | [] => True
  | a :: rest =>
      Forall (fun b => forall d, to_datetime a = Ok d -> to_datetime b <> Ok d) rest
      /\ distinct_days rest
  end.

(** The rows of [sp500] that join with one row of [goog]. *)
Definition matches (g : option string * float) (sp500 : PriceTable)
    : list (Joined (option string)) :=
  s ← sp500; if decide (g.1 = s.1) then [(g.1, (g.2, s.2))] else [].

(** The frame of lines 48-51, before the rows with a missing value go. *)
Definition priced (J : list (Joined (option Timestamp))) : DataFrame :=
  mkFrame (length J)
    [("Date", DateCol (J.*1));
     ("goog_price", FloatCol (J.*2.*1));
     ("sp_price", FloatCol (J.*2.*2));
     ("goog_ret", FloatCol (pct_change (J.*2.*1)));
     ("sp_ret", FloatCol (pct_change (J.*2.*2)))].

(** C3 as worded: every record's return is taken against the
    chronologically prior common day (so the earliest common day has no
    record). *)
Definition chronological_returns (goog sp500 : PriceTable) (df : DataFrame) : Prop :=
  forall i r, aligned_record df i = Some r ->
    exists d' g' s',
      common_day goog sp500 d' g' s' /\ d' < Date r /\
      goog_ret r = (goog_price r / g' - 1)%float /\
      sp_ret r = (sp_price r / s' - 1)%float.

(** ** Runs *)

(** The exceptions the script's own lookups and the splitter raise. *)
Definition builtin (e : exn) : Prop :=
  e ∈ ["KeyError"; "TypeError"; "IndexError"; "ValueError"; "AttributeError";
       "NotFittedError"; "ReferenceError"].

(** Every exception of the result satisfies [P]. *)
Definition raises {A : Type} (P : exn -> Prop) (r : result A) : Prop :=
  forall e, r = Raise e -> P e.

(** The class [select_model] constructs for a name (lines 65-70). *)
Definition selects (name : string) (c : Estimator) : Prop :=
  (name = "Logistic Regression" /\ c = LogisticRegression) \/
  (name = "Decision Tree" /\ c = DecisionTreeClassifier) \/
  (name = "Random Forest" /\ c = RandomForestClassifier).

(** What a run computes before its first fit: the steps of lines 111-115
    and 121 that can fail, in their order. *)
Definition data_steps (cfg : Config) (df : DataFrame)
    : result (Matrix * list Z * list Fold) :=
  lagged ← prepare_features df (lags cfg);
  X ← values lagged.1 lagged.2;
  y ← int_col lagged.1 "goog_up";
  tscv ← TimeSeriesSplit (splits cfg);
  folds ← split tscv (Z.of_nat (length X));
  Ok (X, y, folds).

Section RunVocabulary.

Context {sk : Sklearn}.

(** The statement leaves the world as it found it. *)
Definition reads_only {A : Type} (m : M A) : Prop := forall w, (m w).2 = w.

(** What follows the fit in the body of the loop (lines 126-142). *)
Definition after_fit (model : option nat) (X_test : Matrix) (y_test : list Z)
  (acc : list Metrics * list (Z * Z * Score))
  : M (list Metrics * list (Z * Z * Score)) :=
bind (model_predict model X_test) (fun y_pred =>
bind (model_scores model X_test (ret y_pred)) (fun y_proba =>
bind (lift (accuracy_score y_test y_pred)) (fun acc_ =>
bind (lift (precision_score y_test y_pred)) (fun prec =>
bind (lift (recall_score y_test y_pred)) (fun rec =>
bind (lift (f1_score y_test y_pred)) (fun f1 =>
bind (lift (roc_auc_score y_test y_proba)) (fun auc =>
ret (acc.1 ++ [mkMetrics acc_ prec rec f1 auc],
     acc.2 ++ zip (zip y_test y_pred) y_proba)))))))).

(** What follows the loop over the folds (lines 144-159). *)
Definition full_sample (model : option nat) (X : Matrix) (y : list Z)
  (out : list Metrics * list (Z * Z * Score)) : M Report :=
bind (model_fit model X y) (fun _ =>
bind (model_scores model X (model_predict model X)) (fun proba =>
bind (lift (roc_curve y proba)) (fun curve =>
ret (mkReport (mean_round out.1) out.2 curve)))).

(** The statements of [evaluate] from the choice of the model on. *)
Definition with_model (cfg : Config) (X : Matrix) (y : list Z) (tscv : Z)
  (model : option nat) : M Report :=
bind (lift (split tscv (Z.of_nat (length X)))) (fun folds =>
bind (for_loop (fold_step model X y) folds ([], [])) (fun out =>
full_sample model X y out)).

(** The only instance is the one at address 0, created first and without
  [random_state]; every fit so far was called on it, with training sets
  of [ns] rows. *)
Definition one_instance (ns : list nat) (w : World) : Prop :=
(exists obj, heap w = [obj] /\ random_state obj = None) /\
calls w = New 0 :: (FitCall 0 <$> ns).

(** Every exception a call into the libraries raises satisfies [P]. *)
Definition library_raises (P : exn -> Prop) : Prop :=
(forall c rs r X y, raises P (fit c rs r X y)) /\
(forall l X, raises P (predict l X)) /\
(forall l X, raises P (predict_proba_1 l X)) /\
(forall t p, raises P (accuracy_score t p)) /\
(forall t p, raises P (precision_score t p)) /\
(forall t p, raises P (recall_score t p)) /\
(forall t p, raises P (f1_score t p)) /\
(forall t p, raises P (roc_auc_score t p)) /\
(forall t p, raises P (roc_curve t p)).

(** Every exception of the statement satisfies [P]. *)
Definition raises_in {A : Type} (P : exn -> Prop) (m : M A) : Prop :=
forall w, raises P (m w).1.

(** What a fit learns, apart from the random state it leaves behind. *)
Definition learned_of (r : result (learned * rng)) : result learned :=
match r with
| Ok (l, _) => Ok l
| Raise e => Raise e
end.

(** Fitting class [c] learns the same from the same data whatever the
  process-wide random state. *)
Definition rng_free (c : Estimator) : Prop :=
forall rs r1 r2 X y, learned_of (fit c rs r1 X y) = learned_of (fit c rs r2 X y).

(** Two worlds that differ at most in the random state. *)
Definition same_but_rng (w1 w2 : World) : Prop :=
heap w1 = heap w2 /\ calls w1 = calls w2.

(** Every instance is of a class whose fit ignores the random state. *)
Definition steady (w : World) : Prop :=
Forall (fun obj => rng_free (cls obj)) (heap w).

(** Run from two such worlds, the statement returns or raises the same
  and leaves two such worlds. *)
Definition agree {A : Type} (m : M A) : Prop :=
forall w1 w2, same_but_rng w1 w2 -> steady w1 ->
  (m w1).1 = (m w2).1 /\ same_but_rng (m w1).2 (m w2).2 /\ steady (m w1).2.

End RunVocabulary.

(** ** Sample data *)

(** A sample frame: four rows, most recent first, nothing missing. *)
Definition sample_frame : DataFrame :=
  mkFrame 4 [("Date", DateCol (Some <$> [18265; 18264; 18263; 18262]));
             ("goog_price", FloatCol [121; 110; 100; 125]%float);
             ("sp_price", FloatCol [30; 33; 36; 40]%float);
             ("goog_ret", FloatCol [0.25; 0.5; -0.25; -0.5]%float);
             ("sp_ret", FloatCol [-0.125; 0.125; 0.75; -0.75]%float)].

(** Two price tables: three common days, one day only in the second. *)
Definition sample_goog : PriceTable :=
  [(Some "01/01/2020", 100); (Some "02/01/2020", 110); (Some "03/01/2020", 121)]%float.

Definition sample_sp500 : PriceTable :=
  [(Some "03/01/2020", 12); (Some "01/01/2020", 10); (Some "02/01/2020", 11);
   (Some "06/01/2020", 3)]%float.

(** What [load_data] returns on the sample tables. *)
Definition sample_aligned : DataFrame :=
  mkFrame 2
    [("Date", DateCol (Some <$> [18263; 18262]));
     ("goog_price", FloatCol [110; 100]%float);
     ("sp_price", FloatCol [11; 10]%float);
     ("goog_ret", FloatCol [110 / 121 - 1; 100 / 110 - 1]%float);
     ("sp_ret", FloatCol [11 / 12 - 1; 10 / 11 - 1]%float)].

(** A frame of seven days, most recent first, whose target return changes
    sign from each day to the next. *)
Definition sample_series : DataFrame :=
  mkFrame 7
    [("Date", DateCol (Some <$> [18268; 18267; 18266; 18265; 18264; 18263; 18262]));
     ("goog_price", FloatCol [10; 20; 10; 20; 10; 20; 10]%float);
     ("sp_price", FloatCol [30; 31; 32; 33; 34; 35; 36]%float);
     ("goog_ret", FloatCol [0.5; -0.5; 0.5; -0.5; 0.5; -0.5; 0.5]%float);
     ("sp_ret", FloatCol [0.25; 0.25; 0.25; 0.25; 0.25; 0.25; 0.25]%float)].

(** A frame of seven days whose target return is negative on one day only. *)
Definition sample_rally : DataFrame :=
  mkFrame 7
    [("Date", DateCol (Some <$> [18268; 18267; 18266; 18265; 18264; 18263; 18262]));
     ("goog_price", FloatCol [10; 20; 10; 20; 10; 20; 10]%float);
     ("sp_price", FloatCol [30; 31; 32; 33; 34; 35; 36]%float);
     ("goog_ret", FloatCol [0.5; -0.5; 0.5; 0.5; 0.5; 0.5; 0.5]%float);
     ("sp_ret", FloatCol [0.25; 0.25; 0.25; 0.25; 0.25; 0.25; 0.25]%float)].

(** A frame of nine days.  The target return changes sign from each day to
    the next, so the sign of a day's return is read off the return of the
    day before it in the frame; the index return of that day tells as much
    on the first two rows, and on them only. *)
Definition sample_tie : DataFrame :=
  mkFrame 9
    [("Date", DateCol (Some <$> [18270; 18269; 18268; 18267; 18266; 18265; 18264;
                                 18263; 18262]));
     ("goog_price", FloatCol [20; 10; 20; 10; 20; 10; 20; 10; 20]%float);
     ("sp_price", FloatCol [128; 64; 128; 256; 128; 256; 512; 1024; 2048]%float);
     ("goog_ret", FloatCol [1; -0.5; 1; -0.5; 1; -0.5; 1; -0.5; 1]%float);
     ("sp_ret", FloatCol [1; -0.5; 1; 1; -0.5; 1; 1; 1; 1]%float)].

(** A reading of floats that knows one text. *)
Definition sample_float_of_string (text : string) : result float :=
  if decide (text = "1.5") then Ok 1.5%float else Raise "ValueError".

(** * Verification *)

(** ** Columns by name *)

Lemma get_col_set_cols_eq cols name s :
  get_col (set_cols cols name s) name = Ok s.
Proof.
  induction cols as [|[n s'] cols IH]; simpl.
  - by rewrite decide_True.
  - destruct (decide (n = name)) as [->|Hne]; simpl.
    + by rewrite decide_True.
    + by rewrite decide_False.
Qed.

Lemma get_col_set_cols_ne cols name name' s :
  name <> name' -> get_col (set_cols cols name s) name' = get_col cols name'.
Proof.
  intros Hne. induction cols as [|[n s'] cols IH]; simpl.
  - by rewrite decide_False.
  - destruct (decide (n = name)) as [->|Hn]; simpl.
    + by rewrite !decide_False.
    + by rewrite IH.
Qed.

Lemma get_col_elem_of cols name s :
  get_col cols name = Ok s -> (name, s) ∈ cols.
Proof.
  induction cols as [|[n s'] cols IH]; simpl; [done|].
  destruct (decide (n = name)) as [->|Hn].
  - intros [= ->]. left.
  - intros H. right. auto.
Qed.

Lemma elem_of_set_cols cols name s c :
  c ∈ set_cols cols name s -> c ∈ cols \/ c = (name, s).
Proof.
  induction cols as [|[n s'] cols IH]; simpl.
  - intros ->%list_elem_of_singleton. by right.
  - destruct (decide (n = name)) as [->|Hn].
    + intros [->|H]%elem_of_cons; [by right|]. left. by right.
    + intros [->|H]%elem_of_cons; [left; left|].
      destruct (IH H) as [?|?]; [left; by right|by right].
Qed.

Lemma float_col_set_col_eq df name xs :
  float_col (set_col df name (FloatCol xs)) name = Ok xs.
Proof. unfold float_col, set_col. simpl. by rewrite get_col_set_cols_eq. Qed.

Lemma float_col_set_col_ne df name name' s :
  name <> name' -> float_col (set_col df name s) name' = float_col df name'.
Proof.
  intros Hne. unfold float_col, set_col. simpl. by rewrite get_col_set_cols_ne.
Qed.

Lemma float_col_get_col df name xs :
  float_col df name = Ok xs -> get_col (columns df) name = Ok (FloatCol xs).
Proof.
  unfold float_col. destruct (get_col _ _) as [[]|]; naive_solver.
Qed.

(** ** Column names *)

Lemma goog_lag_inj k k' : goog_lag k = goog_lag k' -> k = k'.
Proof. unfold goog_lag, str. intros H. simplify_eq/=. by apply (inj pretty). Qed.

Lemma sp_lag_inj k k' : sp_lag k = sp_lag k' -> k = k'.
Proof. unfold sp_lag, str. intros H. simplify_eq/=. by apply (inj pretty). Qed.

Lemma goog_lag_sp_lag k k' : goog_lag k <> sp_lag k'.
Proof. unfold goog_lag, sp_lag. intros H. simplify_eq/=. Qed.

Lemma goog_lag_fresh k :
  goog_lag k <> "goog_ret" /\ goog_lag k <> "sp_ret" /\ goog_lag k <> "goog_up".
Proof. unfold goog_lag. repeat split; intros H; simplify_eq/=. Qed.

Lemma sp_lag_fresh k :
  sp_lag k <> "goog_ret" /\ sp_lag k <> "sp_ret" /\ sp_lag k <> "goog_up".
Proof. unfold sp_lag. repeat split; intros H; simplify_eq/=. Qed.

(** ** Shifting and masks *)

Lemma length_shift p xs : length (shift p xs) = length xs.
Proof.
  unfold shift. case_decide;
    rewrite length_app, length_replicate, ?length_drop, ?length_take; lia.
Qed.

Lemma shift_up_lookup k xs i :
  0 < k ->
  shift (- k) xs !! i =
    if decide (i + Z.to_nat k < length xs)%nat then xs !! (i + Z.to_nat k)%nat
    else if decide (i < length xs)%nat then Some nan else None.
Proof.
  intros Hk. unfold shift. rewrite decide_True by lia.
  replace (- - k) with k by lia.
  destruct (decide (i + Z.to_nat k < length xs)%nat) as [Hlt|Hge].
  - rewrite lookup_app_l by (rewrite length_drop; lia).
    rewrite lookup_drop. f_equal. lia.
  - rewrite lookup_app_r by (rewrite length_drop; lia).
    rewrite length_drop. case_decide.
    + apply lookup_replicate_2. lia.
    + apply lookup_ge_None_2. rewrite length_replicate. lia.
Qed.

Lemma length_pct_change xs : length (pct_change xs) = length xs.
Proof. unfold pct_change. rewrite length_zip_with, length_shift. lia. Qed.

Lemma length_notna s : length (notna s) = series_len s.
Proof. destruct s; simpl; by rewrite length_fmap. Qed.

Lemma length_keep_mask df : well_formed df -> length (keep_mask df) = nrows df.
Proof.
  unfold well_formed, keep_mask. generalize (nrows df) as n. intros n.
  induction 1 as [|c cols Hc _ IH]; simpl.
  - by rewrite length_replicate.
  - rewrite length_zip_with, length_notna, IH, Hc. lia.
Qed.

Lemma keep_mask_lookup df i :
  well_formed df -> (i < nrows df)%nat ->
  keep_mask df !! i = Some true <->
  forall c, c ∈ columns df -> notna c.2 !! i = Some true.
Proof.
  unfold well_formed, keep_mask. generalize (nrows df) as n. intros n Hwf Hi.
  induction Hwf as [|c cols Hc Hwf IH]; simpl.
  - split; [intros _ c Hin; inversion Hin|].
    intros _. by apply lookup_replicate_2.
  - rewrite lookup_zip_with. split.
    + intros H c' Hin.
      destruct (notna c.2 !! i) as [b1|] eqn:E1; [|done].
      destruct (foldr _ _ cols !! i) as [b2|] eqn:E2; [|done].
      simpl in H. injection H as H. apply andb_true_iff in H as [-> ->].
      apply elem_of_cons in Hin as [->|Hin]; [done|]. by apply IH.
    + intros H. rewrite (H c) by left. simpl.
      rewrite (proj2 IH); [done|]. intros c' Hin. apply H. by right.
Qed.

Lemma mask_is_prefix (mask : list bool) (a : nat) :
  (a <= length mask)%nat ->
  (forall i, (i < length mask)%nat -> mask !! i = Some true <-> (i < a)%nat) ->
  mask = replicate a true ++ replicate (length mask - a) false.
Proof.
  intros Ha H. apply list_eq. intros i.
  destruct (decide (i < length mask)%nat) as [Hi|Hi].
  - destruct (decide (i < a)%nat) as [Hia|Hia].
    + rewrite lookup_app_l by (rewrite length_replicate; lia).
      rewrite lookup_replicate_2 by done. by apply H.
    + rewrite lookup_app_r by (rewrite length_replicate; lia).
      rewrite length_replicate, lookup_replicate_2 by lia.
      destruct (lookup_lt_is_Some_2 mask i Hi) as [[] Hb]; [|done].
      apply H in Hb; [lia|done].
  - rewrite !lookup_ge_None_2; [done| |lia].
    rewrite length_app, !length_replicate. lia.
Qed.

Lemma select_all_false {A} n (xs : list A) : select (replicate n false) xs = [].
Proof. revert xs. induction n; intros [|x xs]; simpl; auto. Qed.

Lemma select_prefix {A} a b (xs : list A) :
  select (replicate a true ++ replicate b false) xs = take a xs.
Proof.
  revert xs. induction a as [|a IH]; intros xs; simpl.
  - rewrite select_all_false. by destruct xs.
  - destruct xs as [|x xs]; [by destruct b|]. simpl. by rewrite IH.
Qed.

Lemma count_prefix a b :
  length (filter (fun c => c = true) (replicate a true ++ replicate b false)) = a.
Proof.
  rewrite filter_app, length_app.
  assert (length (filter (fun c => c = true) (replicate b false)) = 0%nat) as ->.
  { induction b as [|b IHb]; [done|].
    rewrite replicate_S, filter_cons_False by done. exact IHb. }
  induction a as [|a IH]; [done|].
  rewrite replicate_S, filter_cons_True by done. simpl in *. lia.
Qed.

(** ** prepare_features *)

Lemma max_lag_ge lags k : k ∈ lags -> k <= max_lag lags.
Proof.
  induction lags as [|k' lags IH]; [by intros ?%elem_of_nil|].
  simpl. intros [->|H]%elem_of_cons; [lia|]. specialize (IH H). lia.
Qed.

Lemma max_lag_elem_of lags :
  lags <> [] -> Forall (fun k => 0 < k) lags -> max_lag lags ∈ lags.
Proof.
  induction lags as [|k lags IH]; [done|]. intros _ Hpos.
  apply Forall_cons in Hpos as [Hk Hpos]. simpl.
  destruct lags as [|k' lags].
  - simpl. rewrite Z.max_l by lia. left.
  - destruct (Z.max_spec k (max_lag (k' :: lags))) as [[_ ->]|[_ ->]].
    + right. by apply IH.
    + left.
Qed.

Section Lagging.

Variables (df0 : DataFrame) (g s : list float).

Lemma add_lag_lagged K df k :
  lagged df0 g s K df -> exists df', add_lag df k = Ok df' /\ lagged df0 g s (k :: K) df'.
Proof.
  intros (Hn & Hg & Hs & Hk & Hc).
  destruct (goog_lag_fresh k) as (G1 & G2 & _).
  destruct (sp_lag_fresh k) as (S1 & S2 & _).
  unfold add_lag. rewrite Hg. simpl.
  rewrite float_col_set_col_ne, Hs by done. simpl.
  eexists; split; [done|].
  split; [done|]. split; [by rewrite !float_col_set_col_ne|].
  split; [by rewrite !float_col_set_col_ne|]. split.
  - intros k' Hin. destruct (decide (k' = k)) as [->|Hne].
    + split; [|apply float_col_set_col_eq].
      rewrite float_col_set_col_ne by (symmetry; apply goog_lag_sp_lag).
      apply float_col_set_col_eq.
    + apply elem_of_cons in Hin as [?|Hin]; [done|].
      destruct (Hk k' Hin) as [Hk1 Hk2]. split.
      * rewrite float_col_set_col_ne by (symmetry; apply goog_lag_sp_lag).
        by rewrite float_col_set_col_ne by (intros ?%goog_lag_inj; done).
      * rewrite float_col_set_col_ne by (intros ?%sp_lag_inj; done).
        by rewrite float_col_set_col_ne by apply goog_lag_sp_lag.
  - intros c [[Hin| ->]%elem_of_set_cols| ->]%elem_of_set_cols.
    + destruct (Hc c Hin) as [?|(k' & ? & ?)]; [by left|].
      right. exists k'. split; [by right|done].
    + right. exists k. split; [left|by left].
    + right. exists k. split; [left|by right].
Qed.

Lemma for_each_add_lag lags K df :
  lagged df0 g s K df ->
  exists df1, for_each add_lag lags df = Ok df1 /\ lagged df0 g s (reverse lags ++ K) df1.
Proof.
  revert K df. induction lags as [|k lags IH]; intros K df H.
  - exists df. by split.
  - destruct (add_lag_lagged K df k H) as (df' & E & H').
    destruct (IH _ _ H') as (df1 & E1 & H1).
    exists df1. simpl. rewrite E. split; [done|].
    by rewrite reverse_cons, <- (assoc_L (++)).
Qed.

End Lagging.

Lemma lagged_start df g s :
  float_col df "goog_ret" = Ok g -> float_col df "sp_ret" = Ok s ->
  lagged df g s [] df.
Proof.
  intros Hg Hs. split; [done|]. split; [done|]. split; [done|]. split.
  - by intros k ?%elem_of_nil.
  - intros c Hc. by left.
Qed.

Lemma get_col_fmap (f : Series -> Series) cols name :
  get_col (prod_map id f <$> cols) name =
  match get_col cols name with Ok s => Ok (f s) | Raise e => Raise e end.
Proof.
  induction cols as [|[n s] cols IH]; simpl; [done|].
  by destruct (decide (n = name)).
Qed.

Lemma float_col_dropna df name xs :
  float_col df name = Ok xs ->
  float_col (dropna df) name = Ok (select (keep_mask df) xs).
Proof.
  intros H%float_col_get_col. unfold float_col, dropna. simpl.
  by rewrite get_col_fmap, H.
Qed.

Lemma complete_lookup df c i :
  well_formed df -> complete df -> c ∈ columns df -> (i < nrows df)%nat ->
  notna c.2 !! i = Some true.
Proof.
  intros Hwf Hc Hin Hi.
  pose proof (proj1 (Forall_forall _ _) Hwf c Hin) as Hlen. simpl in Hlen.
  pose proof (proj1 (Forall_forall _ _) Hc c Hin) as Hall. simpl in Hall.
  destruct (lookup_lt_is_Some_2 (notna c.2) i) as [b Hb].
  { rewrite length_notna. lia. }
  rewrite Hb. f_equal.
  exact (proj1 (Forall_forall _ _) Hall b (list_elem_of_lookup_2 _ _ _ Hb)).
Qed.

Lemma float_col_complete df name xs i x :
  well_formed df -> complete df -> float_col df name = Ok xs ->
  xs !! i = Some x -> is_nan x = false.
Proof.
  intros Hwf Hc Hcol Hx.
  apply float_col_get_col, get_col_elem_of in Hcol.
  pose proof (proj1 (Forall_forall _ _) Hwf _ Hcol) as Hlen. simpl in Hlen.
  pose proof (complete_lookup df _ i Hwf Hc Hcol) as H. simpl in H.
  rewrite list_lookup_fmap, Hx in H. simpl in H.
  apply lookup_lt_Some in Hx.
  specialize (H ltac:(lia)). injection H as H. by apply negb_true_iff.
Qed.

Lemma float_col_length df name xs :
  well_formed df -> float_col df name = Ok xs -> length xs = nrows df.
Proof.
  intros Hwf Hcol. apply float_col_get_col, get_col_elem_of in Hcol.
  exact (proj1 (Forall_forall _ _) Hwf _ Hcol).
Qed.

Lemma notna_shift_up (g : list float) k i :
  0 < k -> (i < length g)%nat ->
  (forall j x, g !! j = Some x -> is_nan x = false) ->
  notna (FloatCol (shift (- k) g)) !! i = Some true <-> (i + Z.to_nat k < length g)%nat.
Proof.
  intros Hk Hi Hg. simpl. rewrite list_lookup_fmap, shift_up_lookup by done.
  destruct (decide (i + Z.to_nat k < length g)%nat) as [Hlt|Hge].
  - destruct (lookup_lt_is_Some_2 g _ Hlt) as [x Hx]. rewrite Hx. simpl.
    by rewrite (Hg _ _ Hx).
  - rewrite decide_True by done. simpl. split; [|lia]. intros [=].
Qed.

Lemma prepare_features_frame df g s lags :
  well_formed df -> complete df ->
  float_col df "goog_ret" = Ok g -> float_col df "sp_ret" = Ok s ->
  Forall (fun k => 0 < k) lags -> max_lag lags <= Z.of_nat (nrows df) ->
  exists df1,
    for_each add_lag lags df = Ok df1 /\
    lagged df g s (reverse lags ++ []) df1 /\
    keep_mask (with_label df1 g) =
      replicate (nrows df - Z.to_nat (max_lag lags)) true
        ++ replicate (Z.to_nat (max_lag lags)) false.
Proof.
  intros Hwf Hcomp Hg Hs Hpos Hmax.
  destruct (for_each_add_lag df g s lags [] df (lagged_start _ _ _ Hg Hs))
    as (df1 & E & L).
  exists df1. split; [done|]. split; [done|].
  destruct L as (Hn & Hg1 & Hs1 & Hk & Hc).
  pose proof (float_col_length _ _ _ Hwf Hg) as Hlg.
  pose proof (float_col_length _ _ _ Hwf Hs) as Hls.
  assert (forall j x, g !! j = Some x -> is_nan x = false) as Hgn
    by (intros j x; by eapply float_col_complete).
  assert (forall j x, s !! j = Some x -> is_nan x = false) as Hsn
    by (intros j x; by eapply float_col_complete).
  assert (forall k, k ∈ reverse lags ++ [] -> 0 < k <= max_lag lags) as Hin.
  { intros k Hk'. rewrite app_nil_r, elem_of_reverse in Hk'. split.
    - exact (proj1 (Forall_forall _ _) Hpos k Hk').
    - by apply max_lag_ge. }
  assert (well_formed (with_label df1 g)) as Hwf2.
  { apply Forall_forall. intros c [Hc1| ->]%elem_of_set_cols; simpl.
    - rewrite Hn. destruct (Hc c Hc1) as [H0|(k & _ & [->| ->])]; simpl.
      + exact (proj1 (Forall_forall _ _) Hwf c H0).
      + by rewrite length_shift.
      + by rewrite length_shift.
    - by rewrite length_fmap, Hn. }
  pose proof (length_keep_mask _ Hwf2) as Hlen. simpl in Hlen. rewrite Hn in Hlen.
  set (a := (nrows df - Z.to_nat (max_lag lags))%nat).
  replace (Z.to_nat (max_lag lags)) with (length (keep_mask (with_label df1 g)) - a)%nat
    by lia.
  apply mask_is_prefix; [lia|]. intros i Hi.
  rewrite keep_mask_lookup by (simpl; lia || done). split.
  - intros Hall. destruct (decide (lags = [])) as [->|Hne]; [simpl in *; lia|].
    pose proof (max_lag_elem_of lags Hne Hpos) as Hm.
    destruct (Hin (max_lag lags)) as [Hm0 _].
    { rewrite app_nil_r, elem_of_reverse. done. }
    destruct (Hk (max_lag lags)) as [Hkg _].
    { rewrite app_nil_r, elem_of_reverse. done. }
    specialize (Hall (goog_lag (max_lag lags), FloatCol (shift (- max_lag lags) g))).
    simpl in Hall. assert ((i + Z.to_nat (max_lag lags) < length g)%nat); [|lia].
    apply (notna_shift_up g _ i Hm0); [lia|done|]. apply Hall.
    apply get_col_elem_of. simpl.
    rewrite get_col_set_cols_ne
      by (intros ?; destruct (goog_lag_fresh (max_lag lags)) as (_ & _ & F); by apply F).
    by apply float_col_get_col.
  - intros Hia c [Hc1| ->]%elem_of_set_cols; [|simpl].
    + destruct (Hc c Hc1) as [H0|(k & Hk' & [->| ->])].
      * apply (complete_lookup df); [done..|lia].
      * destruct (Hin k Hk'). apply notna_shift_up; [done|lia|done|lia].
      * destruct (Hin k Hk'). apply notna_shift_up; [done|lia|done|lia].
    + rewrite list_lookup_fmap.
      destruct (lookup_lt_is_Some_2 (up <$> g) i) as [x ->]; [|done].
      rewrite length_fmap. lia.
Qed.

Lemma prepare_features_unfold df lags df1 g :
  for_each add_lag lags df = Ok df1 -> float_col df1 "goog_ret" = Ok g ->
  prepare_features df lags =
    Ok (dropna (with_label df1 g), (goog_lag <$> lags) ++ (sp_lag <$> lags)).
Proof. intros E Hg. unfold prepare_features. rewrite E. simpl. by rewrite Hg. Qed.

Lemma float_col_with_label df1 g name :
  name <> "goog_up" -> float_col (with_label df1 g) name = float_col df1 name.
Proof. intros Hne. unfold with_label. by rewrite float_col_set_col_ne. Qed.

Lemma cell_float_col df name xs i :
  float_col df name = Ok xs -> cell df name i = xs !! i.
Proof. intros H. unfold cell. by rewrite H. Qed.

Lemma cell_dropna_prefix df name xs a b i :
  float_col df name = Ok xs ->
  keep_mask df = replicate a true ++ replicate b false ->
  (i < a)%nat -> cell (dropna df) name i = xs !! i.
Proof.
  intros Hcol Hmask Hi. unfold cell.
  rewrite (float_col_dropna _ _ _ Hcol), Hmask, select_prefix.
  by apply lookup_take_lt.
Qed.

(** ** The frame [prepare_features] returns *)

Lemma length_select {A} (mask : list bool) (xs : list A) :
  length xs = length mask ->
  length (select mask xs) = length (filter (fun b => b = true) mask).
Proof.
  revert xs. induction mask as [|b mask IH]; intros [|x xs] Hlen; simplify_eq/=;
    [done|].
  destruct b.
  - rewrite filter_cons_True by done. simpl. by rewrite IH.
  - rewrite filter_cons_False by done. by apply IH.
Qed.

Lemma series_len_select mask s :
  series_len s = length mask ->
  series_len (select_series mask s) = length (filter (fun b => b = true) mask).
Proof. destruct s; simpl; apply length_select. Qed.

Lemma well_formed_dropna df : well_formed df -> well_formed (dropna df).
Proof.
  intros Hwf. pose proof (length_keep_mask df Hwf) as Hlen.
  unfold well_formed, dropna. simpl. apply Forall_fmap, Forall_forall.
  intros [n s] Hin. simpl. apply series_len_select.
  rewrite Hlen. exact (proj1 (Forall_forall _ _) Hwf _ Hin).
Qed.

Lemma well_formed_with_label df g s K df1 :
  well_formed df -> float_col df "goog_ret" = Ok g -> float_col df "sp_ret" = Ok s ->
  lagged df g s K df1 -> well_formed (with_label df1 g).
Proof.
  intros Hwf Hg Hs (Hn & _ & _ & _ & Hc).
  pose proof (float_col_length _ _ _ Hwf Hg) as Hlg.
  pose proof (float_col_length _ _ _ Hwf Hs) as Hls.
  apply Forall_forall. intros c [Hc1| ->]%elem_of_set_cols; simpl.
  - rewrite Hn. destruct (Hc c Hc1) as [H0|(k & _ & [->| ->])]; simpl.
    + exact (proj1 (Forall_forall _ _) Hwf c H0).
    + by rewrite length_shift.
    + by rewrite length_shift.
  - by rewrite length_fmap, Hn.
Qed.

(** C1: for lags that are all positive and a frame of [N > max(lags)] rows
    with nothing missing, [prepare_features] returns [N - max(lags)] rows,
    every column of the returned frame holding that many entries;
    row [i] of the result is row [i] of the input, and for every lag [k] its
    [goog_lag k] and [sp_lag k] cells hold the returns stored at row [i + k]
    of the input, a row that exists. *)
Theorem prepare_features_lagged_rows df g s lags :
  well_formed df -> complete df ->
  float_col df "goog_ret" = Ok g -> float_col df "sp_ret" = Ok s ->
  lags <> [] -> Forall (fun k => 0 < k) lags ->
  max_lag lags < Z.of_nat (nrows df) ->
  exists out names,
    prepare_features df lags = Ok (out, names) /\
    Z.of_nat (nrows out) = Z.of_nat (nrows df) - max_lag lags /\
    well_formed out /\
    forall k i, k ∈ lags -> (i < nrows out)%nat ->
      (i + Z.to_nat k < nrows df)%nat /\
      cell out "goog_ret" i = cell df "goog_ret" i /\
      is_Some (cell df "goog_ret" (i + Z.to_nat k)) /\
      is_Some (cell df "sp_ret" (i + Z.to_nat k)) /\
      cell out (goog_lag k) i = cell df "goog_ret" (i + Z.to_nat k) /\
      cell out (sp_lag k) i = cell df "sp_ret" (i + Z.to_nat k).
Proof.
  intros Hwf Hcomp Hg Hs Hne Hpos Hmax.
  destruct (prepare_features_frame df g s lags) as (df1 & E & L & Hmask).
  1-5: done.
  { lia. }
  pose proof L as (Hn & Hg1 & Hs1 & Hk & _).
  pose proof (max_lag_elem_of lags Hne Hpos) as Hm.
  pose proof (proj1 (Forall_forall _ _) Hpos _ Hm) as Hm0. simpl in Hm0.
  pose proof (float_col_length _ _ _ Hwf Hg) as Hlg.
  pose proof (float_col_length _ _ _ Hwf Hs) as Hls.
  eexists _, _. split; [by apply prepare_features_unfold|]. split.
  { simpl. rewrite Hmask, count_prefix. lia. }
  split.
  { apply well_formed_dropna. by eapply well_formed_with_label. }
  intros k i Hin Hi. simpl in Hi. rewrite Hmask, count_prefix in Hi.
  pose proof (max_lag_ge _ _ Hin) as Hle.
  pose proof (proj1 (Forall_forall _ _) Hpos _ Hin) as Hk0. simpl in Hk0.
  destruct (Hk k) as [Hkg Hks]; [by rewrite app_nil_r, elem_of_reverse|].
  assert (i + Z.to_nat k < nrows df)%nat as Hik by lia.
  rewrite !(cell_float_col df "goog_ret" g), !(cell_float_col df "sp_ret" s) by done.
  split; [done|]. split.
  { eapply cell_dropna_prefix; [|done..]. by rewrite float_col_with_label. }
  split; [apply lookup_lt_is_Some_2; lia|].
  split; [apply lookup_lt_is_Some_2; lia|]. split.
  - erewrite cell_dropna_prefix; [|rewrite float_col_with_label; [done|]|done..].
    + rewrite shift_up_lookup by done. by rewrite decide_True by lia.
    + destruct (goog_lag_fresh k) as (_ & _ & F). exact F.
  - erewrite cell_dropna_prefix; [|rewrite float_col_with_label; [done|]|done..].
    + rewrite shift_up_lookup by done. by rewrite decide_True by lia.
    + destruct (sp_lag_fresh k) as (_ & _ & F). exact F.
Qed.

Lemma prepare_features_lagged_rows_witness :
  exists out names,
    prepare_features sample_frame [2; 1] = Ok (out, names) /\
    Z.of_nat (nrows out) = Z.of_nat (nrows sample_frame) - max_lag [2; 1] /\
    well_formed out /\
    forall k i, k ∈ [2; 1] -> (i < nrows out)%nat ->
      (i + Z.to_nat k < nrows sample_frame)%nat /\
      cell out "goog_ret" i = cell sample_frame "goog_ret" i /\
      is_Some (cell sample_frame "goog_ret" (i + Z.to_nat k)) /\
      is_Some (cell sample_frame "sp_ret" (i + Z.to_nat k)) /\
      cell out (goog_lag k) i = cell sample_frame "goog_ret" (i + Z.to_nat k) /\
      cell out (sp_lag k) i = cell sample_frame "sp_ret" (i + Z.to_nat k).
Proof.
  apply (prepare_features_lagged_rows sample_frame
           [0.25; 0.5; -0.25; -0.5]%float [-0.125; 0.125; 0.75; -0.75]%float).
  - repeat constructor.
  - repeat constructor.
  - reflexivity.
  - reflexivity.
  - discriminate.
  - repeat constructor.
  - reflexivity.
Defined.

Lemma merge_sort_sorted (l : list Z) : Sorted Z.le l -> merge_sort Z.le l = l.
Proof.
  intros H. apply (Sorted_unique Z.le); [apply Sorted_merge_sort; apply _|done|].
  apply merge_sort_Permutation.
Qed.

(** C7, as the code has it: the feature names are the [goog_lag] names in
    the order in which the lags were supplied, then the [sp_lag] names in
    that same order; this is the ascending order when the lags were supplied
    ascending. *)
Theorem feature_names_in_supplied_order df g s lags :
  float_col df "goog_ret" = Ok g -> float_col df "sp_ret" = Ok s ->
  exists out names,
    prepare_features df lags = Ok (out, names) /\
    names = (goog_lag <$> lags) ++ (sp_lag <$> lags) /\
    (Sorted Z.le lags -> names = ascending_feature_names lags).
Proof.
  intros Hg Hs.
  destruct (for_each_add_lag df g s lags [] df (lagged_start _ _ _ Hg Hs))
    as (df1 & E & (_ & Hg1 & _)).
  eexists _, _. split; [by apply prepare_features_unfold|]. split; [done|].
  intros Hsorted. unfold ascending_feature_names. simpl.
  by rewrite merge_sort_sorted.
Qed.

Lemma feature_names_in_supplied_order_witness :
  exists out names,
    prepare_features sample_frame [2; 1] = Ok (out, names) /\
    names = (goog_lag <$> [2; 1]) ++ (sp_lag <$> [2; 1]) /\
    (Sorted Z.le [2; 1] -> names = ascending_feature_names [2; 1]).
Proof.
  apply (feature_names_in_supplied_order sample_frame
           [0.25; 0.5; -0.25; -0.5]%float [-0.125; 0.125; 0.75; -0.75]%float);
    reflexivity.
Defined.

(** C7 as worded fails: for the lags [2; 1] the names come out as
    [goog_lag2; goog_lag1; sp_lag2; sp_lag1], not in ascending lag order. *)
Lemma feature_names_not_ascending :
  exists out,
    prepare_features sample_frame [2; 1]
      = Ok (out, ["goog_lag2"; "goog_lag1"; "sp_lag2"; "sp_lag1"]) /\
    ascending_feature_names [2; 1] = ["goog_lag1"; "goog_lag2"; "sp_lag1"; "sp_lag2"] /\
    ["goog_lag2"; "goog_lag1"; "sp_lag2"; "sp_lag1"] <> ascending_feature_names [2; 1].
Proof.
  eexists. split; [vm_compute; reflexivity|]. split; [by vm_compute|].
  vm_compute. discriminate.
Qed.

Lemma values_no_features df n acc start :
  for_each (fun rows i => row ← row_values df [] i; Ok (rows ++ [row]))
           (seq start n) acc = Ok (acc ++ replicate n []).
Proof.
  revert acc start. induction n as [|n IH]; intros acc start; simpl.
  - by rewrite app_nil_r.
  - rewrite IH. by rewrite <- (assoc_L (++)).
Qed.

(** C10: with no lags [prepare_features] raises nothing; it returns an empty
    list of feature names and a frame with all [N] rows of the input, every
    float column of the input unchanged, so that [df[features].values] is a
    matrix of [N] rows and no column. *)
Theorem prepare_features_no_lags df g s :
  well_formed df -> complete df ->
  float_col df "goog_ret" = Ok g -> float_col df "sp_ret" = Ok s ->
  exists out,
    prepare_features df [] = Ok (out, []) /\
    nrows out = nrows df /\
    (forall name xs, name <> "goog_up" ->
       float_col df name = Ok xs -> float_col out name = Ok xs) /\
    values out [] = Ok (replicate (nrows df) []).
Proof.
  intros Hwf Hcomp Hg Hs.
  destruct (prepare_features_frame df g s []) as (df1 & E & L & Hmask);
    [done|done|done|done|done|simpl; lia|].
  simpl in E. injection E as <-. simpl in Hmask.
  rewrite Nat.sub_0_r, app_nil_r in Hmask.
  assert (keep_mask (with_label df g) = replicate (nrows df) true ++ replicate 0 false)
    as Hmask' by (by rewrite Hmask, app_nil_r).
  eexists. split; [by apply (prepare_features_unfold df [] df g)|].
  assert (nrows (dropna (with_label df g)) = nrows df) as Hn.
  { simpl. by rewrite Hmask', count_prefix. }
  split; [done|]. split.
  - intros name xs Hne Hcol.
    rewrite (float_col_dropna _ name xs) by (by rewrite float_col_with_label).
    rewrite Hmask', select_prefix, take_ge; [done|].
    by rewrite (float_col_length df name xs).
  - unfold values. rewrite Hn. apply values_no_features.
Qed.

Lemma prepare_features_no_lags_witness :
  exists out,
    prepare_features sample_frame [] = Ok (out, []) /\
    nrows out = nrows sample_frame /\
    (forall name xs, name <> "goog_up" ->
       float_col sample_frame name = Ok xs -> float_col out name = Ok xs) /\
    values out [] = Ok (replicate (nrows sample_frame) []).
Proof.
  apply (prepare_features_no_lags sample_frame
           [0.25; 0.5; -0.25; -0.5]%float [-0.125; 0.125; 0.75; -0.75]%float).
  - repeat constructor.
  - repeat constructor.
  - reflexivity.
  - reflexivity.
Defined.

(** ** The splitter *)

Lemma slice_seqZ a b N :
  0 <= a <= b -> b <= N -> slice a b (seqZ 0 N) = seqZ a (b - a).
Proof.
  intros Ha Hb. unfold slice.
  replace N with (a + ((b - a) + (N - b))) by lia.
  rewrite (seqZ_app 0 a) by lia. rewrite (seqZ_app (0 + a)) by lia.
  rewrite drop_app_length' by (rewrite length_seqZ; lia).
  rewrite take_app_length' by (rewrite length_seqZ; lia).
  f_equal. 
Qed.

Lemma py_range_blocks start k step :
  0 <= k -> 0 < step ->
  py_range start (start + k * step) step =
    (fun i => start + Z.of_nat i * step) <$> seq 0 (Z.to_nat k).
Proof.
  intros Hk Hs. unfold py_range. do 2 f_equal.
  replace (start + k * step - start + step - 1) with (k * step + (step - 1)) by lia.
  rewrite Z.div_add_l by lia. rewrite Z.div_small by lia. lia.
Qed.

Lemma split_blocks N k :
  1 < k -> k + 1 <= N ->
  FoldSplitter_split N k = Ok (nth_fold N k <$> seq 0 (Z.to_nat k)).
Proof.
  intros Hk HN. unfold FoldSplitter_split, TimeSeriesSplit.
  rewrite decide_False by lia. simpl. unfold split.
  rewrite decide_False by lia. f_equal.
  set (ts := N / (k + 1)).
  assert (0 < ts) as Hts by (apply Z.div_str_pos; lia).
  assert ((k + 1) * ts <= N) as Hle by (apply Z.mul_div_le; lia).
  replace N with (N - k * ts + k * ts) at 2 by lia.
  rewrite py_range_blocks by lia. rewrite <- list_fmap_compose.
  apply list_fmap_ext. intros j i [-> Hi]%lookup_seq. simpl.
  unfold nth_fold. fold ts.
  assert (Z.of_nat j * ts <= (k - 1) * ts) by (apply Z.mul_le_mono_nonneg_r; lia).
  rewrite !slice_seqZ by lia. f_equal; f_equal; lia.
Qed.

Lemma split_accepted N k folds :
  FoldSplitter_split N k = Ok folds -> 1 < k /\ k + 1 <= N.
Proof.
  unfold FoldSplitter_split, TimeSeriesSplit.
  destruct (decide (k <= 1)); [done|]. simpl. unfold split.
  destruct (decide (k + 1 > N)); [done|]. lia.
Qed.

Lemma split_test_size N k :
  1 < k -> k + 1 <= N -> 0 < N / (k + 1) /\ 0 < N - k * (N / (k + 1)).
Proof.
  intros Hk HN.
  assert (0 < N / (k + 1)) by (apply Z.div_str_pos; lia).
  assert ((k + 1) * (N / (k + 1)) <= N) by (apply Z.mul_div_le; lia). lia.
Qed.

(** C2: an accepted split yields exactly [k] folds; every test set is a
    contiguous block of the same positive length that starts where the
    fold's training prefix ends, every training index is smaller than every
    index of the fold's own test block, and the blocks of two folds are
    disjoint, the earlier fold's block lying wholly before the later one's
    (so the folds come in increasing order of block start). *)
Theorem split_walks_forward N k folds :
  FoldSplitter_split N k = Ok folds ->
  length folds = Z.to_nat k /\
  exists test_size, 0 < test_size /\
    (forall i f, folds !! i = Some f ->
       (exists start, train_index f = seqZ 0 start /\
                      test_index f = seqZ start test_size) /\
       (forall a b, a ∈ train_index f -> b ∈ test_index f -> a < b)) /\
    (forall i j f f', (i < j)%nat -> folds !! i = Some f -> folds !! j = Some f' ->
       test_index f ## test_index f' /\
       (forall a b, a ∈ test_index f -> b ∈ test_index f' -> a < b)).
Proof.
  intros Hsplit. destruct (split_accepted _ _ _ Hsplit) as [Hk HN].
  rewrite split_blocks in Hsplit by done. injection Hsplit as <-.
  destruct (split_test_size N k Hk HN) as [Hts Hs0].
  split; [by rewrite length_fmap, length_seq|].
  exists (N / (k + 1)). split; [done|].
  assert (forall i f, (nth_fold N k <$> seq 0 (Z.to_nat k)) !! i = Some f ->
            f = nth_fold N k i) as Hnth.
  { intros i f. rewrite list_lookup_fmap.
    destruct (seq 0 (Z.to_nat k) !! i) as [i'|] eqn:E; [|done].
    apply lookup_seq in E as [-> _]. by intros [= <-]. }
  split.
  - intros i f ->%Hnth. split; [by eexists|]. simpl.
    intros a b Ha%elem_of_seqZ Hb%elem_of_seqZ. lia.
  - intros i j f f' Hij ->%Hnth ->%Hnth. simpl.
    assert (forall a b,
              a ∈ seqZ (N - k * (N / (k + 1)) + Z.of_nat i * (N / (k + 1))) (N / (k + 1)) ->
              b ∈ seqZ (N - k * (N / (k + 1)) + Z.of_nat j * (N / (k + 1))) (N / (k + 1)) ->
              a < b) as Hlt.
    { intros a b Ha%elem_of_seqZ Hb%elem_of_seqZ.
      assert ((Z.of_nat i + 1) * (N / (k + 1)) <= Z.of_nat j * (N / (k + 1)))
        by (apply Z.mul_le_mono_nonneg_r; lia).
      lia. }
    split; [|done]. intros a Ha Hb. specialize (Hlt a a Ha Hb). lia.
Qed.

Lemma split_walks_forward_witness :
  length (nth_fold 10 3 <$> seq 0 3) = Z.to_nat 3 /\
  exists test_size, 0 < test_size /\
    (forall i f, (nth_fold 10 3 <$> seq 0 3) !! i = Some f ->
       (exists start, train_index f = seqZ 0 start /\
                      test_index f = seqZ start test_size) /\
       (forall a b, a ∈ train_index f -> b ∈ test_index f -> a < b)) /\
    (forall i j f f', (i < j)%nat ->
       (nth_fold 10 3 <$> seq 0 3) !! i = Some f ->
       (nth_fold 10 3 <$> seq 0 3) !! j = Some f' ->
       test_index f ## test_index f' /\
       (forall a b, a ∈ test_index f -> b ∈ test_index f' -> a < b)).
Proof. apply (split_walks_forward 10 3). reflexivity. Defined.

Lemma Sorted_seqZ m n : Sorted Z.le (seqZ m n).
Proof.
  destruct (decide (0 <= n)) as [Hn|Hn]; [|rewrite seqZ_nil by lia; constructor].
  rewrite <- (Z2Nat.id n) by done. generalize (Z.to_nat n) as len. clear.
  intros len. revert m. induction len as [|len IH]; intros m.
  - rewrite seqZ_nil by lia. constructor.
  - rewrite seqZ_cons by lia. constructor.
    + replace (Z.pred (Z.of_nat (S len))) with (Z.of_nat len) by lia. apply IH.
    + replace (Z.pred (Z.of_nat (S len))) with (Z.of_nat len) by lia.
      destruct len as [|len]; [rewrite seqZ_nil by lia; constructor|].
      rewrite seqZ_cons by lia. constructor. lia.
Qed.

Lemma concat_test_blocks N k n :
  0 < N / (k + 1) ->
  concat (test_index <$> (nth_fold N k <$> seq 0 n)) =
    seqZ (N - k * (N / (k + 1))) (Z.of_nat n * (N / (k + 1))).
Proof.
  intros Hts. induction n as [|n IH].
  - simpl. by rewrite seqZ_nil by lia.
  - rewrite seq_S, !fmap_app, concat_app, IH. simpl. rewrite app_nil_r.
    replace (Z.of_nat (S n) * (N / (k + 1)))
      with (Z.of_nat n * (N / (k + 1)) + N / (k + 1)) by lia.
    rewrite seqZ_app by lia. done.
Qed.

(** C6: for an accepted split, the test indices of all folds, concatenated
    in fold order and sorted, are the contiguous range of the last
    [held_out] indices, ending at [N - 1]; they are pairwise distinct, and
    the indices left out are exactly the training prefix of the first fold. *)
Theorem test_blocks_cover_tail N k folds :
  FoldSplitter_split N k = Ok folds ->
  exists held_out, 0 < held_out < N /\
    merge_sort Z.le (concat (test_index <$> folds)) = seqZ (N - held_out) held_out /\
    NoDup (concat (test_index <$> folds)) /\
    (forall f, folds !! 0%nat = Some f -> train_index f = seqZ 0 (N - held_out)).
Proof.
  intros Hsplit. destruct (split_accepted _ _ _ Hsplit) as [Hk HN].
  rewrite split_blocks in Hsplit by done. injection Hsplit as <-.
  destruct (split_test_size N k Hk HN) as [Hts Hs0].
  exists (k * (N / (k + 1))). split; [nia|].
  rewrite concat_test_blocks by done. rewrite Z2Nat.id by lia.
  split; [|split].
  - apply merge_sort_sorted, Sorted_seqZ.
  - apply NoDup_seqZ.
  - intros f. destruct (Z.to_nat k) as [|n] eqn:E; [lia|].
    simpl. intros [= <-]. unfold nth_fold. simpl. f_equal. lia.
Qed.

Lemma test_blocks_cover_tail_witness :
  exists held_out, 0 < held_out < 11 /\
    merge_sort Z.le (concat (test_index <$> (nth_fold 11 3 <$> seq 0 3)))
      = seqZ (11 - held_out) held_out /\
    NoDup (concat (test_index <$> (nth_fold 11 3 <$> seq 0 3))) /\
    (forall f, (nth_fold 11 3 <$> seq 0 3) !! 0%nat = Some f ->
       train_index f = seqZ 0 (11 - held_out)).
Proof. apply (test_blocks_cover_tail 11 3). reflexivity. Defined.

(** ** load_data *)

Lemma select_lookup {A} (mask : list bool) (xs : list A) i :
  length xs = length mask ->
  select mask xs !! i = nth_true mask i ≫= (xs !!.).
Proof.
  revert xs i. induction mask as [|b mask IH]; intros [|x xs] i Hlen;
    simplify_eq/=; [done|].
  destruct b.
  - destruct i as [|i]; simpl; [done|]. rewrite IH by done.
    by destruct (nth_true mask i).
  - rewrite IH by done. by destruct (nth_true mask i).
Qed.

Lemma nth_true_lookup mask i p : nth_true mask i = Some p -> mask !! p = Some true.
Proof.
  revert i p. induction mask as [|b mask IH]; intros i p; simpl; [done|].
  destruct b.
  - destruct i as [|i]; [by intros [= <-]|].
    destruct (nth_true mask i) as [q|] eqn:E; intros [= <-]. simpl. eauto.
  - destruct (nth_true mask i) as [q|] eqn:E; intros [= <-]. simpl. eauto.
Qed.

Lemma nth_true_mono mask i j p q :
  (i < j)%nat -> nth_true mask i = Some p -> nth_true mask j = Some q -> (p < q)%nat.
Proof.
  revert i j p q. induction mask as [|b mask IH]; intros i j p q Hij; simpl; [done|].
  destruct b.
  - destruct j as [|j]; [lia|]. destruct i as [|i].
    + intros [= <-]. destruct (nth_true mask j); intros [= <-]. lia.
    + destruct (nth_true mask i) as [p'|] eqn:Ei; intros [= <-].
      destruct (nth_true mask j) as [q'|] eqn:Ej; intros [= <-].
      assert (p' < q')%nat by (eapply (IH i j); [lia|done..]). lia.
  - destruct (nth_true mask i) as [p'|] eqn:Ei; intros [= <-].
    destruct (nth_true mask j) as [q'|] eqn:Ej; intros [= <-].
    assert (p' < q')%nat by (eapply (IH i j); done). lia.
Qed.

Lemma nth_true_is_Some mask i :
  (i < length (filter (fun b => b = true) mask))%nat -> is_Some (nth_true mask i).
Proof.
  revert i. induction mask as [|b mask IH]; intros i; simpl; [lia|].
  destruct b.
  - rewrite filter_cons_True by done. destruct i as [|i]; simpl; [eauto|].
    intros Hi. destruct (IH i) as [p ->]; [lia|]. simpl. eauto.
  - rewrite filter_cons_False by done. intros Hi.
    destruct (IH i Hi) as [p ->]. simpl. eauto.
Qed.

(** *** Floats *)

Lemma is_nan_Prim2SF x :
  FloatOps.Prim2SF x = SpecFloat.S754_nan -> is_nan x = true.
Proof. intros H. unfold is_nan. by rewrite FloatAxioms.eqb_spec, H. Qed.

(** A return computed against a missing price is missing. *)
Lemma pct_undefined x : is_nan (x / nan - 1)%float = true.
Proof.
  apply is_nan_Prim2SF. rewrite FloatAxioms.sub_spec, FloatAxioms.div_spec.
  assert (FloatOps.Prim2SF nan = SpecFloat.S754_nan) as -> by reflexivity.
  by destruct (FloatOps.Prim2SF x).
Qed.

Lemma pct_change_lookup_0 xs y : pct_change xs !! 0%nat = Some y -> is_nan y = true.
Proof.
  unfold pct_change, shift. rewrite decide_False by lia.
  destruct xs as [|x xs]; [done|]. simpl. intros [= <-]. apply pct_undefined.
Qed.

Lemma pct_change_lookup_S xs p :
  pct_change xs !! S p =
    cur ← xs !! S p; prev ← xs !! p; Some (cur / prev - 1)%float.
Proof.
  unfold pct_change, shift. rewrite decide_False by lia.
  rewrite lookup_zip_with. destruct (xs !! S p) as [cur|] eqn:Ec; [|done].
  pose proof (lookup_lt_Some _ _ _ Ec) as Hlt.
  change (Z.to_nat 1) with 1%nat. rewrite Nat.min_l by lia.
  rewrite lookup_app_r by (rewrite length_replicate; lia).
  rewrite length_replicate. replace (S p - 1)%nat with p by lia.
  rewrite lookup_take_lt by lia. done.
Qed.

(** *** The join *)

Lemma elem_of_merge goog sp500 c g s :
  (c, (g, s)) ∈ merge goog sp500 <-> (c, g) ∈ goog /\ (c, s) ∈ sp500.
Proof.
  unfold merge. rewrite list_elem_of_bind. split.
  - intros ([t1 g1] & ([t2 s2] & Hin & Hs)%list_elem_of_bind & Hg). simpl in *.
    destruct (decide (t1 = t2)) as [->|]; [|by apply elem_of_nil in Hin].
    apply list_elem_of_singleton in Hin. by simplify_eq.
  - intros [Hg Hs]. exists (c, g). split; [|done].
    apply list_elem_of_bind. exists (c, s). split; [|done]. simpl.
    rewrite decide_True by done. apply list_elem_of_singleton. done.
Qed.

(** A text that is read as a day is none of those read as [NaT]. *)
Lemma to_datetime_not_nat text t :
  to_datetime text = Ok t -> ~ (text = "" \/ text ∈ nat_strings).
Proof.
  intros H [->|Hin]; [by vm_compute in H|]. unfold nat_strings in Hin.
  repeat (apply elem_of_cons in Hin as [->|Hin]; [by vm_compute in H|]).
  by apply elem_of_nil in Hin.
Qed.

Lemma to_datetime_cell_Some c t :
  to_datetime_cell c = Ok (Some t) <-> exists text, c = Some text /\ to_datetime text = Ok t.
Proof.
  split.
  - destruct c as [text|]; [|done]. simpl. case_decide; [done|].
    destruct (to_datetime text) as [t'|] eqn:E; [|done]. intros [= ->]. eauto.
  - intros (text & -> & H). simpl.
    rewrite decide_False by (by eapply to_datetime_not_nat). by rewrite H.
Qed.

Lemma to_datetime_cell_raises c e :
  to_datetime_cell c = Raise e <->
  exists text, c = Some text /\ ~ (text = "" \/ text ∈ nat_strings) /\
               to_datetime text = Raise e.
Proof.
  split.
  - destruct c as [text|]; [|done]. simpl. case_decide as Hn; [done|].
    destruct (to_datetime text) as [t'|e'] eqn:E; [done|]. intros [= ->]. eauto.
  - intros (text & -> & Hn & H). simpl. rewrite decide_False by done. by rewrite H.
Qed.

Lemma parse_dates_Forall2 rows dated :
  parse_dates rows = Ok dated ->
  Forall2 (fun r d => to_datetime_cell r.1 = Ok d.1 /\ d.2 = r.2) rows dated.
Proof.
  revert dated. induction rows as [|r rows IH]; intros dated; simpl.
  - intros [= <-]. constructor.
  - destruct (to_datetime_cell r.1) as [t|] eqn:Et; [|done].
    destruct (parse_dates rows) as [out|]; [|done]. intros [= <-].
    constructor; [done|]. by apply IH.
Qed.

Lemma parse_dates_app l1 l2 dated :
  parse_dates (l1 ++ l2) = Ok dated ->
  exists d1 d2, dated = d1 ++ d2 /\ parse_dates l1 = Ok d1 /\ parse_dates l2 = Ok d2.
Proof.
  revert dated. induction l1 as [|r l1 IH]; intros dated; simpl.
  - intros H. by exists [], dated.
  - destruct (to_datetime_cell r.1) as [t|]; [|done].
    destruct (parse_dates (l1 ++ l2)) as [out|] eqn:E; [|done]. intros [= <-].
    destruct (IH out eq_refl) as (d1 & d2 & -> & -> & ->).
    by exists ((t, r.2) :: d1), d2.
Qed.

Lemma elem_of_parse_dates rows dated t v :
  parse_dates rows = Ok dated ->
  (Some t, v) ∈ dated <-> exists text, (Some text, v) ∈ rows /\ to_datetime text = Ok t.
Proof.
  intros H%parse_dates_Forall2. split.
  - intros (i & Hi)%list_elem_of_lookup_1.
    destruct (Forall2_lookup_r _ _ _ _ _ H Hi) as ([c v'] & Hr & Ht & Hv).
    simpl in *. subst v'. apply to_datetime_cell_Some in Ht as (text & -> & Ht).
    exists text. split; [|done]. by eapply list_elem_of_lookup_2.
  - intros (text & (i & Hi)%list_elem_of_lookup_1 & Ht).
    destruct (Forall2_lookup_l _ _ _ _ _ H Hi) as ([t' v'] & Hd & Ht' & Hv).
    cbn [fst snd] in Ht', Hv. subst v'.
    assert (to_datetime_cell (Some text) = Ok (Some t)) as Hc
      by (apply to_datetime_cell_Some; eauto).
    rewrite Hc in Ht'. injection Ht' as <-. by eapply list_elem_of_lookup_2.
Qed.

Lemma elem_of_dated goog sp500 dated d g s :
  parse_dates (merge goog sp500) = Ok dated ->
  (Some d, (g, s)) ∈ dated <-> common_day goog sp500 d g s.
Proof.
  intros H. rewrite (elem_of_parse_dates _ _ _ _ H). unfold common_day.
  setoid_rewrite elem_of_merge.
  split; [intros (text & [? ?] & ?)|intros (text & ? & ? & ?)]; exists text; auto.
Qed.

Lemma merge_cons g goog sp500 :
  merge (g :: goog) sp500 = matches g sp500 ++ merge goog sp500.
Proof. done. Qed.

Lemma matches_cons g s sp500 :
  matches g (s :: sp500) =
    (if decide (g.1 = s.1) then [(g.1, (g.2, s.2))] else []) ++ matches g sp500.
Proof. done. Qed.

Lemma matches_days g sp500 dated t v :
  parse_dates (matches g sp500) = Ok dated -> (Some t, v) ∈ dated ->
  exists text, g.1 = Some text /\ (exists s, (Some text, s) ∈ sp500) /\
               to_datetime text = Ok t.
Proof.
  intros H Hin. apply (elem_of_parse_dates _ _ _ _ H) in Hin as (text & Hin & Ht).
  unfold matches in Hin. apply list_elem_of_bind in Hin as (s & Hin & Hs).
  destruct (decide (g.1 = s.1)) as [E|]; [|by apply elem_of_nil in Hin].
  apply list_elem_of_singleton in Hin. injection Hin as Hk Hv.
  exists text. split; [done|]. split; [|done]. exists s.2.
  rewrite Hk, E. by destruct s.
Qed.

(** The days of the rows that have one. *)
Lemma days_cons (r : Joined (option Timestamp)) rows :
  omap fst (r :: rows) =
    match r.1 with Some d => d :: omap fst rows | None => omap fst rows end.
Proof. destruct r as [[d|] v]; done. Qed.

Lemma texts_cons (s : option string * float) (sp500 : PriceTable) :
  omap id ((s :: sp500).*1) =
    match s.1 with Some text => text :: omap id (sp500.*1) | None => omap id (sp500.*1) end.
Proof. destruct s as [[text|] v]; done. Qed.

Lemma elem_of_texts (t : PriceTable) text :
  text ∈ omap id (t.*1) <-> exists v, (Some text, v) ∈ t.
Proof.
  rewrite list_elem_of_omap. split.
  - intros (c & ([c' v] & -> & Hin)%list_elem_of_fmap & Hc). simpl in Hc. subst c'.
    by exists v.
  - intros [v Hin]. exists (Some text). split; [|done].
    apply list_elem_of_fmap. by exists (Some text, v).
Qed.

Lemma matches_at_most_one g sp500 dated :
  distinct_days (omap id (sp500.*1)) -> parse_dates (matches g sp500) = Ok dated ->
  (length (omap fst dated) <= 1)%nat.
Proof.
  revert dated. induction sp500 as [|s sp500 IH]; intros dated.
  - intros _ [= <-]. simpl. lia.
  - rewrite texts_cons, matches_cons. intros Hd.
    intros (d1 & d2 & -> & H1 & H2)%parse_dates_app. rewrite omap_app, length_app.
    destruct (decide (g.1 = s.1)) as [E|].
    2: { injection H1 as <-. simpl. apply IH; [|done]. destruct s.1; [by destruct Hd|done]. }
    simpl in H1. destruct (to_datetime_cell g.1) as [[t|]|] eqn:Et; [| |done].
    2: { injection H1 as <-. simpl. apply IH; [|done]. destruct s.1; [by destruct Hd|done]. }
    injection H1 as <-. simpl.
    apply to_datetime_cell_Some in Et as (text & Eg & Et).
    rewrite <- E, Eg in Hd. destruct Hd as [Hs Hrest].
    destruct (omap fst d2) as [|t' rest] eqn:Ed2; [simpl; lia|]. exfalso.
    assert (t' ∈ omap fst d2) as Hin by (rewrite Ed2; left).
    apply list_elem_of_omap in Hin as ([c v] & Hin & Hc). simpl in Hc. subst c.
    destruct (matches_days _ _ _ _ _ H2 Hin) as (text' & Eg' & [s' Hs'] & Ht').
    assert (text' = text) as -> by congruence.
    apply (proj1 (Forall_forall _ _) Hs text) with t; [|done|congruence].
    apply elem_of_texts. eauto.
Qed.

Lemma joined_days_distinct goog sp500 dated :
  distinct_days (omap id (goog.*1)) -> distinct_days (omap id (sp500.*1)) ->
  parse_dates (merge goog sp500) = Ok dated -> NoDup (omap fst dated).
Proof.
  intros Hg Hs. revert dated Hg. induction goog as [|g goog IH]; intros dated Hg.
  - intros [= <-]. constructor.
  - rewrite merge_cons. intros (d1 & d2 & -> & H1 & H2)%parse_dates_app.
    rewrite texts_cons in Hg.
    assert (distinct_days (omap id (goog.*1))) as Hrest
      by (destruct g.1; [by destruct Hg|done]).
    rewrite omap_app. apply NoDup_app. split; [|split].
    + pose proof (matches_at_most_one _ _ _ Hs H1) as Hlen.
      destruct (omap fst d1) as [|x [|y l]]; simpl in *; [constructor| |lia].
      apply NoDup_singleton.
    + intros t ([c1 v1] & Hin1 & Hc1)%list_elem_of_omap
                ([c2 [g2 s2]] & Hin2 & Hc2)%list_elem_of_omap.
      simpl in *. subst c1 c2.
      destruct (matches_days _ _ _ _ _ H1 Hin1) as (text & Eg & _ & Ht).
      rewrite Eg in Hg. destruct Hg as [Hg _].
      apply (elem_of_dated _ _ _ _ _ _ H2) in Hin2 as (text' & Hin & _ & Htext).
      apply (proj1 (Forall_forall _ _) Hg text') with t; [|done..].
      apply elem_of_texts. eauto.
    + by apply IH.
Qed.

(** *** The working order *)

Global Instance date_desc_total : Total date_desc.
Proof. intros a b. unfold date_desc. destruct a.1, b.1; auto; lia. Qed.

Global Instance date_desc_trans : Transitive date_desc.
Proof. intros a b c. unfold date_desc. destruct a.1, b.1, c.1; try done; lia. Qed.

(** In the working order a row with a date has only rows with a later date
    before it. *)
Lemma sorted_strict (J : list (Joined (option Timestamp))) i j a b y :
  StronglySorted date_desc J -> NoDup (omap fst J) -> (i < j)%nat ->
  J !! i = Some a -> J !! j = Some b -> b.1 = Some y ->
  exists x, a.1 = Some x /\ y < x.
Proof.
  intros Hs. revert i j a b.
  induction Hs as [|x0 l Hs IH Hall]; intros i j a b Hnd Hij; [done|].
  destruct j as [|j]; [lia|]. destruct i as [|i].
  - intros [= <-] Hb Hy. cbn in Hb.
    pose proof (list_elem_of_lookup_2 _ _ _ Hb) as Hin.
    pose proof (proj1 (Forall_forall _ _) Hall _ Hin) as Hle.
    destruct b as [cb vb]. simpl in Hy. subst cb.
    destruct x0 as [[x|] v0]; unfold date_desc in Hle; simpl in Hle; [|done].
    exists x. split; [done|].
    rewrite days_cons in Hnd. simpl in Hnd. apply NoDup_cons in Hnd as [Hx _].
    assert (y <> x); [|unfold Timestamp in *; lia].
    intros ->. apply Hx. apply list_elem_of_omap. exists (Some x, vb). by split.
  - cbn. apply IH; [|lia].
    rewrite days_cons in Hnd. destruct x0.1; [by apply NoDup_cons in Hnd as [_ ?]|done].
Qed.

Lemma load_data_priced goog sp500 df :
  load_data goog sp500 = Ok df <->
  exists dated, parse_dates (merge goog sp500) = Ok dated /\
                df = dropna (priced (sort_values_desc dated)).
Proof.
  unfold load_data. destruct (parse_dates (merge goog sp500)) as [dated|e]; simpl.
  - split; [intros [= <-]; by eexists|]. by intros (? & [= <-] & ->).
  - split; [done|]. by intros (? & [=] & _).
Qed.

Lemma well_formed_priced J : well_formed (priced J).
Proof.
  unfold well_formed, priced. simpl.
  repeat constructor; simpl; by rewrite ?length_pct_change, !length_fmap.
Qed.

Lemma lookup_priced (J : list (Joined (option Timestamp))) p d g s :
  J.*1 !! p = Some d -> J.*2.*1 !! p = Some g -> J.*2.*2 !! p = Some s ->
  J !! p = Some (d, (g, s)).
Proof.
  unfold Joined, Timestamp in *. rewrite !list_lookup_fmap.
  destruct (J !! p) as [[d' [g' s']]|]; simpl; [|done].
  intros H1 H2 H3. by simplify_eq.
Qed.

(** Row [p] of the frame of lines 48-51 stays when it has a date, both its
    prices and both its returns. *)
Lemma keep_mask_priced (J : list (Joined (option Timestamp))) p :
  keep_mask (priced J) !! p = Some true <->
  exists d g s gr sr,
    J !! p = Some (Some d, (g, s)) /\
    pct_change (J.*2.*1) !! p = Some gr /\ pct_change (J.*2.*2) !! p = Some sr /\
    is_nan g = false /\ is_nan s = false /\ is_nan gr = false /\ is_nan sr = false.
Proof.
  assert (length (keep_mask (priced J)) = length J) as Hlen
    by apply (length_keep_mask _ (well_formed_priced J)).
  destruct (decide (p < length J)%nat) as [Hp|Hp].
  2: { split.
       - intros H%lookup_lt_Some. rewrite Hlen in H. done.
       - intros (d & g & s & gr & sr & H%lookup_lt_Some & _). done. }
  rewrite (keep_mask_lookup _ p (well_formed_priced J)) by done.
  destruct (lookup_lt_is_Some_2 J p Hp) as [[c [g s]] Ec].
  destruct (lookup_lt_is_Some_2 (pct_change (J.*2.*1)) p) as [gr Egr];
    [by rewrite length_pct_change, !length_fmap|].
  destruct (lookup_lt_is_Some_2 (pct_change (J.*2.*2)) p) as [sr Esr];
    [by rewrite length_pct_change, !length_fmap|].
  assert (forall f : float, Some (negb (is_nan f)) = Some true <-> is_nan f = false) as Hneg.
  { intros f. destruct (is_nan f); simpl; split; congruence. }
  split.
  - intros Hall.
    pose proof (Hall ("Date", DateCol (J.*1)) ltac:(left)) as H1.
    pose proof (Hall ("goog_price", FloatCol (J.*2.*1)) ltac:(right; left)) as H2.
    pose proof (Hall ("sp_price", FloatCol (J.*2.*2)) ltac:(do 2 right; left)) as H3.
    pose proof (Hall ("goog_ret", FloatCol (pct_change (J.*2.*1)))
                  ltac:(do 3 right; left)) as H4.
    pose proof (Hall ("sp_ret", FloatCol (pct_change (J.*2.*2)))
                  ltac:(do 4 right; left)) as H5.
    cbn [snd notna] in H1, H2, H3, H4, H5. unfold Joined, Timestamp in *.
    rewrite !list_lookup_fmap, Ec in H1. rewrite !list_lookup_fmap, Ec in H2.
    rewrite !list_lookup_fmap, Ec in H3. rewrite list_lookup_fmap, Egr in H4.
    rewrite list_lookup_fmap, Esr in H5.
    simpl in H1, H2, H3, H4, H5.
    destruct c as [d|]; [|done].
    exists d, g, s, gr, sr. rewrite <- !Hneg. done.
  - intros (d & g' & s' & gr' & sr' & E & Eg' & Es' & Hg & Hs & Hgr & Hsr).
    unfold Joined, Timestamp in *.
    rewrite Ec in E. injection E as -> -> ->. rewrite Egr in Eg'. rewrite Esr in Es'.
    injection Eg' as ->. injection Es' as ->.
    intros col Hin. unfold priced in Hin. cbn [columns] in Hin.
    repeat (apply elem_of_cons in Hin as [->|Hin]);
      [..|by apply elem_of_nil in Hin]; cbn [snd notna];
      unfold Joined, Timestamp in *;
      rewrite !list_lookup_fmap, ?Ec, ?Egr, ?Esr; simpl; by rewrite ?Hg, ?Hs, ?Hgr, ?Hsr.
Qed.

(** Row [i] of what [dropna] leaves is the [i]-th row that stays. *)
Lemma aligned_record_dropna J i :
  aligned_record (dropna (priced J)) i =
    p ← nth_true (keep_mask (priced J)) i;
    d ← mjoin (J.*1 !! p);
    gp ← J.*2.*1 !! p;
    sp ← J.*2.*2 !! p;
    gr ← pct_change (J.*2.*1) !! p;
    sr ← pct_change (J.*2.*2) !! p;
    Some (mkAligned d gp sp gr sr).
Proof.
  assert (length (keep_mask (priced J)) = length J) as Hlen
    by apply (length_keep_mask _ (well_formed_priced J)).
  unfold aligned_record, date_at, cell.
  rewrite (float_col_dropna (priced J) "goog_price" (J.*2.*1)) by done.
  rewrite (float_col_dropna (priced J) "sp_price" (J.*2.*2)) by done.
  rewrite (float_col_dropna (priced J) "goog_ret" (pct_change (J.*2.*1))) by done.
  rewrite (float_col_dropna (priced J) "sp_ret" (pct_change (J.*2.*2))) by done.
  unfold dropna. cbn [columns]. rewrite get_col_fmap.
  change (get_col (columns (priced J)) "Date") with (@Ok Series (DateCol (J.*1))).
  cbn [select_series].
  rewrite !select_lookup by (by rewrite ?length_pct_change, !length_fmap).
  by destruct (nth_true (keep_mask (priced J)) i) as [p|].
Qed.

(** A row that survives [dropna] is a row [S p] of the working order, with
    its returns taken against row [p]. *)
Lemma aligned_record_priced J i r :
  aligned_record (dropna (priced J)) i = Some r ->
  exists p prev,
    nth_true (keep_mask (priced J)) i = Some (S p) /\
    J !! p = Some prev /\
    J !! S p = Some (Some (Date r), (goog_price r, sp_price r)) /\
    goog_ret r = (goog_price r / prev.2.1 - 1)%float /\
    sp_ret r = (sp_price r / prev.2.2 - 1)%float.
Proof.
  rewrite aligned_record_dropna.
  destruct (nth_true (keep_mask (priced J)) i) as [p|] eqn:Ep; [|done]. simpl.
  pose proof (nth_true_lookup _ _ _ Ep) as Hm.
  apply keep_mask_priced in Hm
    as (d & g & s & gr & sr & Ec & Egr & Esr & _ & _ & Hgr & _).
  unfold Joined, Timestamp in *.
  rewrite !list_lookup_fmap, Ec, Egr, Esr. simpl. intros [= <-]. simpl.
  destruct p as [|p]; [by rewrite (pct_change_lookup_0 _ _ Egr) in Hgr|].
  rewrite pct_change_lookup_S, !list_lookup_fmap, Ec in Egr.
  rewrite pct_change_lookup_S, !list_lookup_fmap, Ec in Esr.
  simpl in Egr, Esr.
  destruct (J !! p) as [[c' [g' s']]|] eqn:Ep'; [|done].
  simpl in Egr, Esr. injection Egr as <-. injection Esr as <-.
  exists p, (c', (g', s')). done.
Qed.

Lemma aligned_record_is_Some J i :
  (i < nrows (dropna (priced J)))%nat -> is_Some (aligned_record (dropna (priced J)) i).
Proof.
  intros Hi. simpl in Hi. destruct (nth_true_is_Some _ _ Hi) as [p Ep].
  rewrite aligned_record_dropna, Ep. simpl.
  apply nth_true_lookup, keep_mask_priced in Ep
    as (d & g & s & gr & sr & Ec & Egr & Esr & _).
  unfold Joined, Timestamp in *.
  rewrite !list_lookup_fmap, Ec, Egr, Esr. simpl. eauto.
Qed.

Lemma nth_true_find mask p :
  mask !! p = Some true -> exists i, nth_true mask i = Some p.
Proof.
  revert p. induction mask as [|b mask IH]; intros p; [done|].
  destruct p as [|p]; simpl.
  - intros [= ->]. by exists 0%nat.
  - intros (i & Hi)%IH. destruct b.
    + exists (S i). by rewrite Hi.
    + exists i. by rewrite Hi.
Qed.


Lemma sample_goog_days : distinct_days (omap id (sample_goog.*1)).
Proof. simpl. repeat split; repeat constructor; intros d; vm_compute; congruence. Qed.

Lemma sample_sp500_days : distinct_days (omap id (sample_sp500.*1)).
Proof. simpl. repeat split; repeat constructor; intros d; vm_compute; congruence. Qed.

Lemma load_data_sample : load_data sample_goog sample_sp500 = Ok sample_aligned.
Proof. vm_compute. reflexivity. Qed.



(** ** No common date *)

Lemma merge_no_common goog sp500 :
  (forall g s, g ∈ goog -> s ∈ sp500 -> g.1 <> s.1) -> merge goog sp500 = [].
Proof.
  intros H. destruct (merge goog sp500) as [|[text [g s]] rest] eqn:E; [done|].
  assert ((text, (g, s)) ∈ merge goog sp500) as [Hg Hs]%elem_of_merge
    by (rewrite E; left).
  by destruct (H _ _ Hg Hs).
Qed.

(** C8, as the code has it: for two price tables with no common cell of
    [Date] (no text that is in both, and no missing date in both),
    [load_data] raises nothing; it returns the frame with its five columns
    and no row. *)
Theorem load_data_no_common_date goog sp500 :
  (forall g s, g ∈ goog -> s ∈ sp500 -> g.1 <> s.1) ->
  load_data goog sp500 = Ok (dropna (priced [])) /\
  nrows (dropna (priced [])) = 0%nat.
Proof.
  intros H. split; [|done]. apply load_data_priced. exists [].
  by rewrite (merge_no_common _ _ H).
Qed.

Lemma load_data_no_common_date_witness :
  load_data sample_goog [(Some "07/01/2020", 3%float)] = Ok (dropna (priced [])) /\
  nrows (dropna (priced [])) = 0%nat.
Proof.
  apply (load_data_no_common_date sample_goog [(Some "07/01/2020", 3%float)]).
  intros g s Hg ->%list_elem_of_singleton. unfold sample_goog in Hg.
  repeat (apply elem_of_cons in Hg as [->|Hg]; [discriminate|]).
  by apply elem_of_nil in Hg.
Defined.

(** C8 as worded fails: the two tables below share no date, and
    [load_data] returns an empty frame instead of raising [EmptyJoinError]. *)
Lemma load_data_no_EmptyJoinError :
  (forall g s, g ∈ sample_goog -> s ∈ [(Some "07/01/2020", 3%float)] -> g.1 <> s.1) /\
  load_data sample_goog [(Some "07/01/2020", 3%float)]
    = Ok (mkFrame 0 [("Date", DateCol []); ("goog_price", FloatCol []);
                     ("sp_price", FloatCol []); ("goog_ret", FloatCol []);
                     ("sp_ret", FloatCol [])]) /\
  load_data sample_goog [(Some "07/01/2020", 3%float)] <> Raise "EmptyJoinError".
Proof.
  split; [|split; [by vm_compute|by vm_compute]].
  intros g s Hg ->%list_elem_of_singleton. unfold sample_goog in Hg.
  repeat (apply elem_of_cons in Hg as [->|Hg]; [discriminate|]).
  by apply elem_of_nil in Hg.
Qed.

(** ** The evaluation loop *)

Section EvaluationFacts.

Context {sk : Sklearn}.

(** *** Statements that only read the world *)

Lemma reads_only_ret {A} (a : A) : reads_only (ret a).
Proof. done. Qed.

Lemma reads_only_lift {A} (r : result A) : reads_only (lift r).
Proof. done. Qed.

Lemma reads_only_bind {A B} (m : M A) (f : A -> M B) :
  reads_only m -> (forall a, reads_only (f a)) -> reads_only (bind m f).
Proof.
  intros Hm Hf w. unfold bind. specialize (Hm w).
  destruct (m w) as [[a|e] w']; simpl in *; subst; [apply Hf|done].
Qed.

Lemma reads_only_deref model : reads_only (deref model).
Proof. intros w. unfold deref. destruct model; [|done]. by destruct (heap w !! _). Qed.

Lemma reads_only_fitted obj : reads_only (fitted obj).
Proof. unfold fitted. by destruct (attrs obj). Qed.

Lemma reads_only_model_predict model X : reads_only (model_predict model X).
Proof.
  apply reads_only_bind; [apply reads_only_deref|]. intros ao.
  apply reads_only_bind; [apply reads_only_fitted|]. intros l. apply reads_only_lift.
Qed.

Lemma reads_only_model_scores model X y_pred :
  reads_only y_pred -> reads_only (model_scores model X y_pred).
Proof.
  intros Hy. unfold model_scores.
  assert (reads_only (bind y_pred (fun p => ret (Label <$> p)))) as Hlabel
    by (apply reads_only_bind; [done|intros; apply reads_only_ret]).
  destruct model; [|done].
  apply reads_only_bind; [apply reads_only_deref|]. intros ao.
  destruct (has_predict_proba _); [|done].
  apply reads_only_bind; [apply reads_only_fitted|]. intros l.
  apply reads_only_bind; [apply reads_only_lift|]. intros p. apply reads_only_ret.
Qed.

Lemma reads_only_after_fit model X_test y_test acc :
  reads_only (after_fit model X_test y_test acc).
Proof.
  unfold after_fit.
  apply reads_only_bind; [apply reads_only_model_predict|]. intros y_pred.
  apply reads_only_bind; [apply reads_only_model_scores, reads_only_ret|].
  intros y_proba.
  repeat (apply reads_only_bind; [apply reads_only_lift|]; intros ?).
  apply reads_only_ret.
Qed.

Lemma fold_step_unfold model X y acc fold w :
  fold_step model X y acc fold w =
    match take_rows X (train_index fold), take_rows X (test_index fold),
          take_rows y (train_index fold), take_rows y (test_index fold) with
    | Ok X_train, Ok X_test, Ok y_train, Ok y_test =>
        bind (model_fit model X_train y_train)
             (fun _ => after_fit model X_test y_test acc) w
    | Raise e, _, _, _ => (Raise e, w)
    | Ok _, Raise e, _, _ => (Raise e, w)
    | Ok _, Ok _, Raise e, _ => (Raise e, w)
    | Ok _, Ok _, Ok _, Raise e => (Raise e, w)
    end.
Proof.
  unfold fold_step, bind at 1 2 3 4, lift.
  destruct (take_rows X (train_index fold)); [|done].
  destruct (take_rows X (test_index fold)); [|done].
  destruct (take_rows y (train_index fold)); [|done].
  by destruct (take_rows y (test_index fold)).
Qed.

Lemma bind_lift {A B} (r : result A) (f : A -> M B) w :
  bind (lift r) f w = match r with Ok a => f a w | Raise e => (Raise e, w) end.
Proof. unfold bind, lift. by destruct r. Qed.

Lemma reads_only_model_fit_None X y : reads_only (model_fit None X y).
Proof. done. Qed.

Lemma model_fit_None X y w : (model_fit None X y w).1 = Raise "AttributeError".
Proof. done. Qed.

Lemma reads_only_fold_step_None X y acc fold :
  reads_only (fold_step None X y acc fold).
Proof.
  intros w. rewrite fold_step_unfold.
  destruct (take_rows X (train_index fold)); [|done].
  destruct (take_rows X (test_index fold)); [|done].
  destruct (take_rows y (train_index fold)); [|done].
  destruct (take_rows y (test_index fold)); [|done]. done.
Qed.

Lemma reads_only_for_loop {A S} (body : S -> A -> M S) xs acc :
  (forall acc x, reads_only (body acc x)) -> reads_only (for_loop body xs acc).
Proof.
  intros Hbody. revert acc. induction xs as [|x xs IH]; intros acc; simpl.
  - apply reads_only_ret.
  - apply reads_only_bind; [apply Hbody|done].
Qed.

(** *** One instance for the whole run *)

Lemma model_fit_one_instance ns X y w :
  one_instance ns w -> one_instance (ns ++ [length X]) (model_fit (Some 0%nat) X y w).2.
Proof.
  intros [(obj & Hh & Hrs) Hc]. destruct w as [h g c]. simpl in Hh, Hc. subst h c.
  unfold model_fit, bind, deref. simpl.
  destruct (fit _ _ _ _ _) as [[l r]|e]; simpl.
  - split; [by eexists|]. simpl. by rewrite fmap_app.
  - split; [by eexists|]. simpl. by rewrite fmap_app.
Qed.

Lemma fold_step_one_instance ns X y acc fold w :
  one_instance ns w ->
  (exists n, one_instance (ns ++ [n]) (fold_step (Some 0%nat) X y acc fold w).2) \/
  (one_instance ns (fold_step (Some 0%nat) X y acc fold w).2 /\
   exists e, (fold_step (Some 0%nat) X y acc fold w).1 = Raise e).
Proof.
  intros Hw. rewrite fold_step_unfold.
  destruct (take_rows X (train_index fold)) as [X_train|]; [|right; eauto].
  destruct (take_rows X (test_index fold)) as [X_test|]; [|right; eauto].
  destruct (take_rows y (train_index fold)) as [y_train|]; [|right; eauto].
  destruct (take_rows y (test_index fold)) as [y_test|]; [|right; eauto].
  left. exists (length X_train).
  pose proof (model_fit_one_instance ns X_train y_train w Hw) as H.
  unfold bind. destruct (model_fit _ _ _ w) as [[[]|e] w']; simpl in *; [|done].
  by rewrite reads_only_after_fit.
Qed.

Lemma for_loop_one_instance ns X y folds acc w :
  one_instance ns w ->
  exists ms,
    one_instance (ns ++ ms) (for_loop (fold_step (Some 0%nat) X y) folds acc w).2 /\
    (length ms <= length folds)%nat /\
    (forall out, (for_loop (fold_step (Some 0%nat) X y) folds acc w).1 = Ok out ->
       length ms = length folds).
Proof.
  revert ns acc w. induction folds as [|fold folds IH]; intros ns acc w Hw.
  - exists []. rewrite app_nil_r. split; [done|]. split; [done|]. done.
  - simpl. unfold bind.
    destruct (fold_step_one_instance ns X y acc fold w Hw) as [[n Hn]|[Hn [e He]]].
    + destruct (fold_step _ _ _ _ _ w) as [[acc'|e] w'] eqn:E; simpl in *.
      * destruct (IH _ acc' w' Hn) as (ms & H1 & H2 & H3).
        exists (n :: ms). rewrite <- (assoc_L (++)) in H1.
        split; [done|]. split; [simpl; lia|].
        intros out Hout. simpl. f_equal. by eapply H3.
      * exists [n]. split; [done|]. split; [simpl; lia|]. done.
    + destruct (fold_step _ _ _ _ _ w) as [[acc'|e'] w'] eqn:E; simpl in *; [done|].
      exists []. rewrite app_nil_r. split; [done|]. split; [simpl; lia|]. done.
Qed.

Lemma split_length k N folds :
  TimeSeriesSplit k = Ok k -> split k N = Ok folds -> length folds = Z.to_nat k.
Proof.
  intros Hk Hs.
  assert (FoldSplitter_split N k = Ok folds) as H
    by (unfold FoldSplitter_split; by rewrite Hk).
  destruct (split_accepted _ _ _ H) as [H1 H2].
  rewrite split_blocks in H by done. injection H as <-.
  by rewrite length_fmap, length_seq.
Qed.

Lemma TimeSeriesSplit_Ok k tscv : TimeSeriesSplit k = Ok tscv -> tscv = k.
Proof. unfold TimeSeriesSplit. by destruct (decide (k <= 1)); intros [= <-]. Qed.

Lemma full_sample_world model X y out w :
  (full_sample model X y out w).2 = (model_fit model X y w).2.
Proof.
  unfold full_sample, bind at 1.
  destruct (model_fit model X y w) as [[[]|e] w']; [|done]. simpl.
  apply reads_only_bind;
    [apply reads_only_model_scores, reads_only_model_predict|].
  intros proba. apply reads_only_bind; [apply reads_only_lift|].
  intros curve. apply reads_only_ret.
Qed.

Lemma full_sample_Ok model X y out w rep :
  (full_sample model X y out w).1 = Ok rep -> (model_fit model X y w).1 = Ok ().
Proof.
  unfold full_sample, bind at 1.
  by destruct (model_fit model X y w) as [[[]|e] w'].
Qed.

Lemma evaluate_unfold cfg df w :
  evaluate cfg df w =
    match prepare_features df (lags cfg) with
    | Raise e => (Raise e, w)
    | Ok lagged =>
        match values lagged.1 lagged.2, int_col lagged.1 "goog_up",
              TimeSeriesSplit (splits cfg) with
        | Ok X, Ok y, Ok tscv =>
            bind (select_model (model_type cfg)) (with_model cfg X y tscv) w
        | Raise e, _, _ => (Raise e, w)
        | Ok _, Raise e, _ => (Raise e, w)
        | Ok _, Ok _, Raise e => (Raise e, w)
        end
    end.
Proof.
  unfold evaluate. rewrite bind_lift.
  destruct (prepare_features df (lags cfg)) as [lagged|]; [|done].
  rewrite bind_lift. destruct (values _ _) as [X|]; [|done].
  rewrite bind_lift. destruct (int_col _ _) as [y|]; [|done].
  rewrite bind_lift. by destruct (TimeSeriesSplit _) as [tscv|].
Qed.

(** [select_model] creates one instance with default arguments, or none. *)
Lemma select_model_start name r :
  select_model name (start r) = (Ok None, start r) \/
  exists c, select_model name (start r)
            = (Ok (Some 0%nat), mkWorld [mkInstance c None None] r [New 0]).
Proof.
  unfold select_model. repeat case_decide; eauto.
Qed.

Lemma with_model_None cfg X y tscv w :
  (with_model cfg X y tscv None w).2 = w /\
  exists e, (with_model cfg X y tscv None w).1 = Raise e.
Proof.
  unfold with_model. rewrite bind_lift.
  destruct (split _ _) as [folds|e]; [|eauto]. unfold bind.
  pose proof (reads_only_for_loop (fold_step None X y) folds ([], [])
                (reads_only_fold_step_None X y) w) as Hw.
  destruct (for_loop _ _ _ w) as [[out|e] w']; simpl in *; subst; eauto.
Qed.

Lemma with_model_one_instance cfg X y k w :
  TimeSeriesSplit k = Ok k -> one_instance [] w ->
  exists ns,
    one_instance ns (with_model cfg X y k (Some 0%nat) w).2 /\
    (length ns <= S (Z.to_nat k))%nat /\
    (forall rep, (with_model cfg X y k (Some 0%nat) w).1 = Ok rep ->
       length ns = S (Z.to_nat k)).
Proof.
  intros Hk Hw. unfold with_model. rewrite bind_lift.
  destruct (split _ _) as [folds|e] eqn:Es.
  2: { exists []. split; [done|]. split; [simpl; lia|done]. }
  pose proof (split_length _ _ _ Hk Es) as Hlen.
  destruct (for_loop_one_instance [] X y folds ([], []) w Hw)
    as (ms & H1 & H2 & H3). simpl in H1.
  unfold bind.
  destruct (for_loop _ _ _ w) as [[out|e] w'] eqn:El; simpl in *.
  - exists (ms ++ [length X]). rewrite full_sample_world.
    split; [by apply model_fit_one_instance|].
    rewrite length_app. simpl. rewrite (H3 out eq_refl). split; [lia|].
    intros _ _. lia.
  - exists ms. split; [done|]. split; [lia|]. by intros rep [=].
Qed.

(** Every instance a run creates was constructed without [random_state]. *)
Lemma evaluate_unseeded cfg df r :
  Forall (fun obj => random_state obj = None) (heap (evaluate cfg df (start r)).2).
Proof.
  rewrite evaluate_unfold.
  destruct (prepare_features df (lags cfg)) as [lagged|]; [|constructor].
  destruct (values _ _) as [X|]; [|constructor].
  destruct (int_col _ _) as [y|]; [|constructor].
  destruct (TimeSeriesSplit _) as [tscv|] eqn:Ek; [|constructor].
  pose proof (TimeSeriesSplit_Ok _ _ Ek) as ->.
  unfold bind.
  destruct (select_model_start (model_type cfg) r) as [->|[c ->]].
  - destruct (with_model_None cfg X y (splits cfg) (start r)) as [-> _].
    constructor.
  - destruct (with_model_one_instance cfg X y (splits cfg)
                (mkWorld [mkInstance c None None] r [New 0]) Ek)
      as (ns & [(obj & -> & Hrs) _] & _); [split; [by eexists|done]|].
    by repeat constructor.
Qed.

(** C5, as the code has it: a run creates at most one model instance, by
    [select_model] before the loop; every fit of the run, one per fold and
    then the full-sample fit, is called on that same instance (address 0),
    [splits + 1] fits in all when the run returns its report.  A run that
    creates no instance raises. *)
Theorem one_model_instance cfg df r :
  (heap (evaluate cfg df (start r)).2 = [] /\
   calls (evaluate cfg df (start r)).2 = [] /\
   exists e, (evaluate cfg df (start r)).1 = Raise e) \/
  (exists ns,
     one_instance ns (evaluate cfg df (start r)).2 /\
     (length ns <= S (Z.to_nat (splits cfg)))%nat /\
     (forall rep, (evaluate cfg df (start r)).1 = Ok rep ->
        length ns = S (Z.to_nat (splits cfg)))).
Proof.
  rewrite evaluate_unfold.
  destruct (prepare_features df (lags cfg)) as [lagged|]; [|left; eauto].
  destruct (values _ _) as [X|]; [|left; eauto].
  destruct (int_col _ _) as [y|]; [|left; eauto].
  destruct (TimeSeriesSplit _) as [tscv|] eqn:Ek; [|left; eauto].
  pose proof (TimeSeriesSplit_Ok _ _ Ek) as ->.
  unfold bind.
  destruct (select_model_start (model_type cfg) r) as [->|[c ->]].
  - left. destruct (with_model_None cfg X y (splits cfg) (start r)) as [-> He].
    eauto.
  - right. apply with_model_one_instance; [done|]. split; [by eexists|done].
Qed.

End EvaluationFacts.

(** C5 as worded fails: in the run below the fits of the two folds and the
    full-sample fit are all called on the instance at address 0, the only
    one the run creates. *)
Lemma folds_share_one_instance :
  let run := @evaluate Majority.sklearn (mkConfig [1] "Decision Tree" 2)
               sample_series (@start Majority.sklearn []) in
  (exists rep, run.1 = Ok rep) /\
  calls run.2 = [New 0; FitCall 0 2; FitCall 0 4; FitCall 0 6] /\
  length (heap run.2) = 1%nat.
Proof. vm_compute. split; [by eexists|done]. Qed.

(** ** Exceptions of a run *)

Lemma raises_Ok {A} P (a : A) : raises P (Ok a).
Proof. by intros e. Qed.

Lemma raises_Raise {A} (P : exn -> Prop) e : P e -> raises P (@Raise A e).
Proof. by intros H e' [= <-]. Qed.

(** An exception passed on unchanged. *)
Ltac reraise :=
  unfold mbind, result_bind; simpl;
  match goal with
  | H : raises ?P (Raise ?e) |- raises ?P (Raise ?e) =>
      apply raises_Raise; exact (H e eq_refl)
  end.

Lemma raises_for_each {A S} P (body : S -> A -> result S) xs acc :
  (forall acc x, raises P (body acc x)) -> raises P (for_each body xs acc).
Proof.
  intros Hbody. revert acc. induction xs as [|x xs IH]; intros acc; simpl.
  - apply raises_Ok.
  - specialize (Hbody acc x). destruct (body acc x) as [acc'|e]; [apply IH|reraise].
Qed.

Lemma raises_get_col cols name : raises builtin (get_col cols name).
Proof.
  induction cols as [|[n s] cols IH]; simpl.
  - apply raises_Raise. unfold builtin. set_solver.
  - destruct (decide (n = name)); [apply raises_Ok|exact IH].
Qed.

Lemma raises_float_col df name : raises builtin (float_col df name).
Proof.
  unfold float_col. pose proof (raises_get_col (columns df) name) as H.
  destruct (get_col _ _) as [[]|e]; try apply raises_Ok; [| |reraise];
    apply raises_Raise; unfold builtin; set_solver.
Qed.

Lemma raises_int_col df name : raises builtin (int_col df name).
Proof.
  unfold int_col. pose proof (raises_get_col (columns df) name) as H.
  destruct (get_col _ _) as [[]|e]; try apply raises_Ok; [| |reraise];
    apply raises_Raise; unfold builtin; set_solver.
Qed.

Lemma raises_prepare_features df lags : raises builtin (prepare_features df lags).
Proof.
  unfold prepare_features.
  assert (raises builtin (for_each add_lag lags df)) as H.
  { apply raises_for_each. intros acc lag. unfold add_lag.
    pose proof (raises_float_col acc "goog_ret") as Hg.
    destruct (float_col acc "goog_ret") as [g|]; [|reraise]. simpl.
    pose proof (raises_float_col (set_col acc (goog_lag lag) (FloatCol (shift (- lag) g)))
                  "sp_ret") as Hs.
    destruct (float_col _ "sp_ret") as [s|]; [apply raises_Ok|reraise]. }
  destruct (for_each add_lag lags df) as [df1|]; [|reraise]. simpl.
  pose proof (raises_float_col df1 "goog_ret") as Hg.
  destruct (float_col df1 "goog_ret"); [apply raises_Ok|reraise].
Qed.

Lemma raises_values df features : raises builtin (values df features).
Proof.
  unfold values. apply raises_for_each. intros rows i.
  assert (raises builtin (row_values df features i)) as H.
  { unfold row_values. apply raises_for_each. intros row name.
    pose proof (raises_float_col df name) as Hc.
    destruct (float_col df name) as [xs|]; [|reraise]. simpl.
    destruct (xs !! i); [apply raises_Ok|].
    apply raises_Raise. unfold builtin. set_solver. }
  destruct (row_values df features i); [apply raises_Ok|reraise].
Qed.

Lemma raises_take_rows {A} (xs : list A) index : raises builtin (take_rows xs index).
Proof.
  induction index as [|i index IH]; simpl; [apply raises_Ok|].
  destruct (if decide (0 <= _) then _ else _).
  - destruct (take_rows xs index); [apply raises_Ok|reraise].
  - apply raises_Raise. unfold builtin. set_solver.
Qed.

Lemma raises_TimeSeriesSplit k : raises builtin (TimeSeriesSplit k).
Proof.
  unfold TimeSeriesSplit. case_decide; [|apply raises_Ok].
  apply raises_Raise. unfold builtin. set_solver.
Qed.

Lemma raises_split k N : raises builtin (split k N).
Proof.
  unfold split. case_decide; [|apply raises_Ok].
  apply raises_Raise. unfold builtin. set_solver.
Qed.

Section RunExceptions.

Context {sk : Sklearn}.

Lemma raises_in_ret {A} P (a : A) : raises_in P (ret a).
Proof. intros w. apply raises_Ok. Qed.

Lemma raises_in_lift {A} P (r : result A) : raises P r -> raises_in P (lift r).
Proof. by intros H w. Qed.

Lemma raises_in_bind {A B} P (m : M A) (f : A -> M B) :
  raises_in P m -> (forall a, raises_in P (f a)) -> raises_in P (bind m f).
Proof.
  intros Hm Hf w. unfold bind. specialize (Hm w).
  destruct (m w) as [[a|e] w']; simpl in *; [apply Hf|].
  apply raises_Raise. exact (Hm e eq_refl).
Qed.

Lemma raises_in_for_loop {A S} P (body : S -> A -> M S) xs acc :
  (forall acc x, raises_in P (body acc x)) -> raises_in P (for_loop body xs acc).
Proof.
  intros Hbody. revert acc. induction xs as [|x xs IH]; intros acc; simpl.
  - apply raises_in_ret.
  - apply raises_in_bind; [apply Hbody|done].
Qed.

Lemma raises_weaken {A} (P Q : exn -> Prop) (r : result A) :
  (forall e, P e -> Q e) -> raises P r -> raises Q r.
Proof. intros H Hr e He. by apply H, Hr. Qed.

Section WithLibrary.

Variable P : exn -> Prop.
Hypothesis Hlib : library_raises P.

Let Q (e : exn) : Prop := P e \/ builtin e.

Lemma raises_builtin {A} (r : result A) : raises builtin r -> raises Q r.
Proof. apply raises_weaken. by right. Qed.

Lemma raises_library {A} (r : result A) : raises P r -> raises Q r.
Proof. apply raises_weaken. by left. Qed.

Lemma raises_in_deref model : raises_in Q (deref model).
Proof.
  intros w. unfold deref. destruct model as [a|]; simpl.
  - destruct (heap w !! a); [apply raises_Ok|].
    apply raises_Raise. right. unfold builtin. set_solver.
  - apply raises_Raise. right. unfold builtin. set_solver.
Qed.

Lemma raises_in_fitted obj : raises_in Q (fitted obj).
Proof.
  unfold fitted. destruct (attrs obj); [apply raises_in_ret|].
  apply raises_in_lift, raises_Raise. right. unfold builtin. set_solver.
Qed.

Lemma raises_in_model_fit model X y : raises_in Q (model_fit model X y).
Proof.
  apply raises_in_bind; [apply raises_in_deref|]. intros [a obj] w.
  destruct Hlib as (Hfit & _).
  specialize (Hfit (cls obj) (random_state obj) (global_rng w) X y).
  destruct (fit _ _ _ _ _) as [[l r]|e]; simpl; [apply raises_Ok|].
  apply raises_Raise. left. exact (Hfit e eq_refl).
Qed.

Lemma raises_in_model_predict model X : raises_in Q (model_predict model X).
Proof.
  apply raises_in_bind; [apply raises_in_deref|]. intros ao.
  apply raises_in_bind; [apply raises_in_fitted|]. intros l.
  apply raises_in_lift, raises_library. apply Hlib.
Qed.

Lemma raises_in_model_scores model X y_pred :
  raises_in Q y_pred -> raises_in Q (model_scores model X y_pred).
Proof.
  intros Hy. unfold model_scores.
  assert (raises_in Q (bind y_pred (fun p => ret (Label <$> p)))) as Hlabel
    by (apply raises_in_bind; [done|intros; apply raises_in_ret]).
  destruct model; [|done].
  apply raises_in_bind; [apply raises_in_deref|]. intros ao.
  destruct (has_predict_proba _); [|done].
  apply raises_in_bind; [apply raises_in_fitted|]. intros l.
  apply raises_in_bind; [|intros; apply raises_in_ret].
  apply raises_in_lift, raises_library. apply Hlib.
Qed.

Lemma raises_in_fold_step model X y acc fold :
  raises_in Q (fold_step model X y acc fold).
Proof.
  unfold fold_step.
  do 4 (apply raises_in_bind;
        [apply raises_in_lift, raises_builtin, raises_take_rows|intros ?]).
  apply raises_in_bind; [apply raises_in_model_fit|intros _].
  apply raises_in_bind; [apply raises_in_model_predict|intros y_pred].
  apply raises_in_bind;
    [apply raises_in_model_scores, raises_in_ret|intros y_proba].
  do 5 (apply raises_in_bind;
        [apply raises_in_lift, raises_library; apply Hlib|intros ?]).
  apply raises_in_ret.
Qed.

(** An exception of a run was raised by a library call or is one of
    Python's own lookup errors. *)
Lemma raises_in_evaluate cfg df : raises_in Q (evaluate cfg df).
Proof.
  unfold evaluate.
  apply raises_in_bind;
    [apply raises_in_lift, raises_builtin, raises_prepare_features|intros lagged].
  apply raises_in_bind;
    [apply raises_in_lift, raises_builtin, raises_values|intros X].
  apply raises_in_bind;
    [apply raises_in_lift, raises_builtin, raises_int_col|intros y].
  apply raises_in_bind;
    [apply raises_in_lift, raises_builtin, raises_TimeSeriesSplit|intros tscv].
  apply raises_in_bind.
  { unfold select_model. repeat case_decide; try apply raises_in_ret;
      intros w; apply raises_Ok. }
  intros model.
  apply raises_in_bind;
    [apply raises_in_lift, raises_builtin, raises_split|intros folds].
  apply raises_in_bind;
    [apply raises_in_for_loop; intros; apply raises_in_fold_step|intros out].
  apply raises_in_bind; [apply raises_in_model_fit|intros _].
  apply raises_in_bind;
    [apply raises_in_model_scores, raises_in_model_predict|intros proba].
  apply raises_in_bind;
    [apply raises_in_lift, raises_library; apply Hlib|intros curve].
  apply raises_in_ret.
Qed.

End WithLibrary.


End RunExceptions.

Lemma Majority_predict_raises r X e :
  Majority.predict r X = Raise e -> e = "ValueError".
Proof.
  induction X as [|row X IH]; simpl; [done|].
  destruct (Majority.predict_row r row) as [c|e'] eqn:Er.
  - destruct (Majority.predict r X); [done|]. intros [= <-]. by apply IH.
  - intros [= <-]. unfold Majority.predict_row in Er.
    destruct r as [|seen j t lo hi]; [done|]. destruct (row !! j); by simplify_eq.
Qed.

Lemma Majority_raises :
  @library_raises Majority.sklearn (fun e => e <> "DegenerateFoldError").
Proof.
  repeat split; intros; intros e He; simpl in He.
  - unfold Majority.fit in He.
    destruct (Majority.flip r) as [b tape'].
    repeat case_match; by simplify_eq.
  - by apply Majority_predict_raises in He as ->.
  - unfold Majority.predict_proba_1 in He. case_decide; [by simplify_eq|].
    destruct (Majority.predict l X) eqn:Ep; [done|]. injection He as <-.
    by apply Majority_predict_raises in Ep as ->.
  - by simplify_eq.
  - by simplify_eq.
  - by simplify_eq.
  - by simplify_eq.
  - unfold Majority.roc_auc_score in He. repeat case_match; by simplify_eq.
  - by simplify_eq.
Qed.



(** ** Two runs *)

Section Reproducibility.

Context {sk : Sklearn}.

Lemma agree_ret {A} (a : A) : agree (ret a).
Proof. by intros w1 w2 H1 H2. Qed.

Lemma agree_lift {A} (r : result A) : agree (lift r).
Proof. by intros w1 w2 H1 H2. Qed.

Lemma agree_bind {A B} (m : M A) (f : A -> M B) :
  agree m -> (forall a, agree (f a)) -> agree (bind m f).
Proof.
  intros Hm Hf w1 w2 H1 H2. unfold bind.
  destruct (Hm w1 w2 H1 H2) as (Hr & Hw & Hs).
  destruct (m w1) as [[a|e] w1'], (m w2) as [[a'|e'] w2']; simpl in *;
    simplify_eq; [by apply Hf|done].
Qed.

Lemma agree_for_loop {A S} (body : S -> A -> M S) xs acc :
  (forall acc x, agree (body acc x)) -> agree (for_loop body xs acc).
Proof.
  intros Hbody. revert acc. induction xs as [|x xs IH]; intros acc; simpl.
  - apply agree_ret.
  - apply agree_bind; [apply Hbody|done].
Qed.

Lemma agree_deref model : agree (deref model).
Proof.
  intros w1 w2 [Hh Hc] Hs. unfold deref. destruct model as [a|]; [|done].
  rewrite <- Hh. by destruct (heap w1 !! a).
Qed.

Lemma agree_fitted obj : agree (fitted obj).
Proof. unfold fitted. destruct (attrs obj); [apply agree_ret|apply agree_lift]. Qed.

Lemma agree_model_predict model X : agree (model_predict model X).
Proof.
  apply agree_bind; [apply agree_deref|]. intros ao.
  apply agree_bind; [apply agree_fitted|]. intros l. apply agree_lift.
Qed.

Lemma agree_model_scores model X y_pred :
  agree y_pred -> agree (model_scores model X y_pred).
Proof.
  intros Hy. unfold model_scores.
  assert (agree (bind y_pred (fun p => ret (Label <$> p)))) as Hlabel
    by (apply agree_bind; [done|intros; apply agree_ret]).
  destruct model; [|done].
  apply agree_bind; [apply agree_deref|]. intros ao.
  destruct (has_predict_proba _); [|done].
  apply agree_bind; [apply agree_fitted|]. intros l.
  apply agree_bind; [apply agree_lift|]. intros p. apply agree_ret.
Qed.

Lemma agree_model_fit model X y : agree (model_fit model X y).
Proof.
  intros [h1 g1 c1] [h2 g2 c2] [Hh Hc] Hs. simpl in Hh, Hc. subst h2 c2.
  unfold steady in Hs. simpl in Hs.
  unfold model_fit, bind, deref. destruct model as [a|]; [|done]. simpl.
  destruct (h1 !! a) as [obj|] eqn:Ea; [|done]. simpl.
  pose proof (Forall_lookup_1 _ _ _ _ Hs Ea) as Hfree.
  specialize (Hfree (random_state obj) g1 g2 X y). unfold learned_of in Hfree.
  destruct (fit (cls obj) (random_state obj) g1 X y) as [[l1 r1]|e1],
           (fit (cls obj) (random_state obj) g2 X y) as [[l2 r2]|e2];
    simplify_eq; simpl.
  - split; [done|]. split; [done|]. unfold steady. simpl.
    apply Forall_insert; [done|]. simpl. exact (Forall_lookup_1 _ _ _ _ Hs Ea).
  - done.
Qed.

Lemma agree_construct c : rng_free c -> agree (construct c).
Proof.
  intros Hc [h1 g1 c1] [h2 g2 c2] [Hh Hcalls] Hs. simpl in Hh, Hcalls. subst h2 c2.
  unfold construct. simpl. split; [done|]. split; [done|].
  unfold steady in *. simpl in *. apply Forall_app. split; [done|].
  by constructor.
Qed.

Lemma agree_select_model name :
  (forall c, selects name c -> rng_free c) -> agree (select_model name).
Proof.
  intros H. unfold select_model, selects in *.
  repeat case_decide; try apply agree_ret; apply agree_construct, H; tauto.
Qed.

Lemma agree_fold_step model X y acc fold : agree (fold_step model X y acc fold).
Proof.
  unfold fold_step.
  do 4 (apply agree_bind; [apply agree_lift|intros ?]).
  apply agree_bind; [apply agree_model_fit|intros _].
  apply agree_bind; [apply agree_model_predict|intros y_pred].
  apply agree_bind; [apply agree_model_scores, agree_ret|intros y_proba].
  do 5 (apply agree_bind; [apply agree_lift|intros ?]).
  apply agree_ret.
Qed.

Lemma agree_evaluate cfg df :
  (forall c, selects (model_type cfg) c -> rng_free c) -> agree (evaluate cfg df).
Proof.
  intros H. unfold evaluate.
  do 4 (apply agree_bind; [apply agree_lift|intros ?]).
  apply agree_bind; [by apply agree_select_model|intros model].
  apply agree_bind; [apply agree_lift|intros folds].
  apply agree_bind; [apply agree_for_loop; intros; apply agree_fold_step|intros out].
  apply agree_bind; [apply agree_model_fit|intros _].
  apply agree_bind; [apply agree_model_scores, agree_model_predict|intros proba].
  apply agree_bind; [apply agree_lift|intros curve].
  apply agree_ret.
Qed.


End Reproducibility.

Lemma Majority_linear_rng_free : @rng_free Majority.sklearn LogisticRegression.
Proof.
  intros rs r1 r2 X y. simpl. unfold Majority.fit.
  repeat case_decide; done.
Qed.



(** * Further properties of the code *)

(** ** What [dropna] leaves *)

Lemma notna_select mask s : notna (select_series mask s) = select mask (notna s).
Proof.
  destruct s as [xs|xs|xs]; simpl; revert xs;
    induction mask as [|b mask IH]; intros [|x xs]; simpl; try done;
    destruct b; simpl; by rewrite ?IH.
Qed.

Lemma complete_dropna df : well_formed df -> complete (dropna df).
Proof.
  intros Hwf. pose proof (length_keep_mask df Hwf) as Hlen.
  unfold complete, dropna. simpl. apply Forall_fmap, Forall_forall.
  intros [n s] Hin. simpl. rewrite notna_select.
  pose proof (proj1 (Forall_forall _ _) Hwf _ Hin) as Hs. simpl in Hs.
  apply Forall_lookup. intros i b Hb.
  rewrite select_lookup in Hb by (by rewrite length_notna, Hs, Hlen).
  destruct (nth_true (keep_mask df) i) as [p|] eqn:Ep; [|done]. simpl in Hb.
  pose proof (nth_true_lookup _ _ _ Ep) as Hm.
  pose proof (lookup_lt_Some _ _ _ Hm) as Hp. rewrite Hlen in Hp.
  pose proof (proj1 (keep_mask_lookup df p Hwf Hp) Hm _ Hin) as Hc. simpl in Hc.
  congruence.
Qed.

(** ** load_data: the frame it returns *)

(** [load_data] returns a frame with its five columns, as many entries in
    each as the frame has rows, and no missing value: what
    [prepare_features] is then called on (lines 73 and 111). *)
Theorem load_data_frame goog sp500 df :
  load_data goog sp500 = Ok df ->
  (columns df).*1 = ["Date"; "goog_price"; "sp_price"; "goog_ret"; "sp_ret"] /\
  well_formed df /\ complete df /\
  (exists g, float_col df "goog_ret" = Ok g /\ length g = nrows df) /\
  (exists s, float_col df "sp_ret" = Ok s /\ length s = nrows df).
Proof.
  intros (dated & _ & ->)%load_data_priced.
  set (J := sort_values_desc dated).
  pose proof (well_formed_dropna _ (well_formed_priced J)) as Hwf.
  split; [done|]. split; [done|].
  split; [apply complete_dropna, well_formed_priced|]. split.
  - pose proof (float_col_dropna (priced J) "goog_ret" (pct_change (J.*2.*1)) eq_refl)
      as Hcol.
    eexists. split; [exact Hcol|]. exact (float_col_length _ _ _ Hwf Hcol).
  - pose proof (float_col_dropna (priced J) "sp_ret" (pct_change (J.*2.*2)) eq_refl)
      as Hcol.
    eexists. split; [exact Hcol|]. exact (float_col_length _ _ _ Hwf Hcol).
Qed.

Lemma load_data_frame_witness :
  (columns sample_aligned).*1 = ["Date"; "goog_price"; "sp_price"; "goog_ret"; "sp_ret"] /\
  well_formed sample_aligned /\ complete sample_aligned /\
  (exists g, float_col sample_aligned "goog_ret" = Ok g /\ length g = nrows sample_aligned) /\
  (exists s, float_col sample_aligned "sp_ret" = Ok s /\ length s = nrows sample_aligned).
Proof. apply (load_data_frame sample_goog sample_sp500). exact load_data_sample. Defined.

(** ** load_data: when it raises *)

Lemma to_datetime_raises text e : to_datetime text = Raise e -> e = "ValueError".
Proof.
  unfold to_datetime. repeat case_match; by intros [= <-].
Qed.

Lemma to_datetime_cell_raises_ValueError c e :
  to_datetime_cell c = Raise e -> e = "ValueError".
Proof.
  intros (text & _ & _ & H)%to_datetime_cell_raises. by eapply to_datetime_raises.
Qed.

Lemma parse_dates_raises rows e :
  parse_dates rows = Raise e <->
  e = "ValueError" /\
  exists r, r ∈ rows /\ to_datetime_cell r.1 = Raise "ValueError".
Proof.
  revert e. induction rows as [|r rows IH]; intros e; simpl.
  - split; [done|]. by intros (_ & r & ?%elem_of_nil & _).
  - destruct (to_datetime_cell r.1) as [t|e'] eqn:Et.
    + destruct (parse_dates rows) as [out|e'] eqn:Ep.
      * split; [done|].
        intros (-> & r' & [->|Hin]%elem_of_cons & Hr'); [congruence|].
        assert (@Ok (list (Joined (option Timestamp))) out = Raise "ValueError") as H;
          [|done].
        apply (IH "ValueError"). eauto.
      * destruct (proj1 (IH e') eq_refl) as (-> & r' & Hin & Hr'). split.
        -- intros [= <-]. split; [done|]. exists r'. split; [by right|done].
        -- by intros (-> & _).
    + pose proof (to_datetime_cell_raises_ValueError _ _ Et) as ->. split.
      * intros [= <-]. split; [done|]. exists r. split; [left|done].
      * by intros (-> & _).
Qed.



(** ** load_data: how many rows remain *)

Lemma keep_mask_priced_head J b mask :
  keep_mask (priced J) = b :: mask -> b = false.
Proof.
  intros Hm. destruct b; [|done]. exfalso.
  assert (length (keep_mask (priced J)) = length J) as Hlen
    by apply (length_keep_mask _ (well_formed_priced J)).
  assert (0 < nrows (priced J))%nat as H0 by (simpl; rewrite <- Hlen, Hm; simpl; lia).
  assert (keep_mask (priced J) !! 0%nat = Some true) as Hk by (by rewrite Hm).
  assert (("goog_ret", FloatCol (pct_change (J.*2.*1))) ∈ columns (priced J)) as Hin
    by (do 3 right; left).
  pose proof (proj1 (keep_mask_lookup _ 0 (well_formed_priced J) H0) Hk _ Hin) as Hc.
  cbn [snd notna] in Hc. rewrite list_lookup_fmap in Hc.
  destruct (pct_change (J.*2.*1) !! 0%nat) as [y|] eqn:Ey; [|done].
  simpl in Hc. rewrite (pct_change_lookup_0 _ _ Ey) in Hc. done.
Qed.

Lemma length_filter_le {A} (P : A -> Prop) `{!forall x, Decision (P x)} (l : list A) :
  (length (filter P l) <= length l)%nat.
Proof.
  induction l as [|x l IH]; [done|]. destruct (decide (P x)).
  - rewrite filter_cons_True by done. simpl. lia.
  - rewrite filter_cons_False by done. simpl. lia.
Qed.

Lemma dropna_priced_rows J : (nrows (dropna (priced J)) <= length J - 1)%nat.
Proof.
  assert (length (keep_mask (priced J)) = length J) as Hlen
    by apply (length_keep_mask _ (well_formed_priced J)).
  simpl. rewrite <- Hlen.
  destruct (keep_mask (priced J)) as [|b mask] eqn:Em; [done|].
  rewrite (keep_mask_priced_head J b mask Em).
  rewrite filter_cons_False by done. simpl.
  pose proof (length_filter_le (fun b => b = true) mask). lia.
Qed.

Lemma length_sorted_join goog sp500 dated :
  parse_dates (merge goog sp500) = Ok dated ->
  length (sort_values_desc dated) = length (merge goog sp500).
Proof.
  intros Hparse. unfold sort_values_desc. rewrite merge_sort_Permutation.
  symmetry. eapply Forall2_length, parse_dates_Forall2. done.
Qed.

(** [load_data] returns fewer rows than the inner join has: the first row
    of the working order has no row before it and always goes with
    [dropna].  Tables with a single common date give a frame without rows,
    and no error. *)
Theorem load_data_loses_a_row goog sp500 df :
  load_data goog sp500 = Ok df -> merge goog sp500 <> [] ->
  (nrows df < length (merge goog sp500))%nat.
Proof.
  intros (dated & Hparse & ->)%load_data_priced Hne.
  pose proof (dropna_priced_rows (sort_values_desc dated)) as Hrows.
  rewrite (length_sorted_join _ _ _ Hparse) in Hrows.
  destruct (merge goog sp500); [done|]. simpl in *. lia.
Qed.

Lemma load_data_loses_a_row_witness :
  (nrows sample_aligned < length (merge sample_goog sample_sp500))%nat.
Proof.
  apply (load_data_loses_a_row sample_goog sample_sp500).
  - exact load_data_sample.
  - discriminate.
Defined.

(** ** Reading the price files *)

(** Line 44 replaces every comma of a price text by a period and changes
    nothing else: the text keeps its length, has no comma left, and every
    other character stays where it was. *)
Theorem replace_comma_only_commas s :
  String.length (replace_comma s) = String.length s /\
  (forall i, String.get i (replace_comma s) <> Some ","%char) /\
  (forall i c, String.get i s = Some c -> c <> ","%char ->
     String.get i (replace_comma s) = Some c) /\
  (forall i, String.get i s = Some ","%char ->
     String.get i (replace_comma s) = Some "."%char).
Proof.
  induction s as [|c s (IH1 & IH2 & IH3 & IH4)]; simpl.
  - repeat split; intros; done.
  - split; [by rewrite IH1|]. split; [|split].
    + intros [|i]; [|apply IH2]. by case_decide; intros [=].
    + intros [|i] c'; [|apply IH3]. intros [= ->] Hc. by rewrite decide_False.
    + intros [|i]; [|apply IH4]. intros [= ->]. by rewrite decide_True.
Qed.

Section ReadingFacts.

Variable float_of_string : string -> result float.

Lemma read_prices_Ok raw t :
  read_prices float_of_string raw = Ok t <->
  Forall2 (fun r p => p.1 = r.1 /\ read_price float_of_string r.2 = Ok p.2) raw t.
Proof.
  revert t. induction raw as [|r raw IH]; intros t; simpl.
  - split; [intros [= <-]; constructor|]. by intros ->%Forall2_nil_inv_l.
  - destruct (read_price float_of_string r.2) as [x|e] eqn:Ex.
    + destruct (read_prices float_of_string raw) as [out|e] eqn:Er.
      * split.
        -- intros [= <-]. constructor; [done|]. by apply IH.
        -- intros ([p1 p2] & t' & [Hp1 Hp2] & Ht & ->)%Forall2_cons_inv_l.
           simpl in *. pose proof (proj2 (IH t') Ht) as [= ->].
           rewrite Ex in Hp2. injection Hp2 as ->. by subst p1.
      * split; [done|].
        intros (p & t' & _ & Ht & ->)%Forall2_cons_inv_l.
        by pose proof (proj2 (IH t') Ht).
    + split; [done|].
      intros (p & t' & [_ Hp] & _)%Forall2_cons_inv_l. simpl in Hp. congruence.
Qed.

Lemma read_prices_Raise raw r text :
  r ∈ raw -> r.2 = Some text ->
  (forall x, float_of_string (replace_comma text) <> Ok x) ->
  exists e, read_prices float_of_string raw = Raise e.
Proof.
  intros Hin Htext Hr.
  destruct (read_prices float_of_string raw) as [t|e] eqn:E; [|eauto].
  apply read_prices_Ok in E. apply list_elem_of_lookup_1 in Hin as [i Hi].
  destruct (Forall2_lookup_l _ _ _ _ _ E Hi) as (p & _ & _ & Hp).
  rewrite Htext in Hp. by destruct (Hr p.2).
Qed.

(** [load_data] converts every price of both tables before it joins
    anything (lines 41-46): a price whose text is no float after its commas
    are replaced makes it raise, whether or not the date of that row is in
    the other table; a missing price raises nothing.  When every price
    converts, the join works on the rows of each table in their order, each
    with its [Date] cell as it is and its price missing, or read from its
    text with periods for commas. *)
Theorem load_files_prices gfile sfile :
  (forall r text, r ∈ gfile ++ sfile -> r.2 = Some text ->
     (forall x, float_of_string (replace_comma text) <> Ok x) ->
     exists e, load_files float_of_string gfile sfile = Raise e) /\
  (forall goog sp500,
     Forall2 (fun r p => p.1 = r.1 /\ read_price float_of_string r.2 = Ok p.2)
             gfile goog ->
     Forall2 (fun r p => p.1 = r.1 /\ read_price float_of_string r.2 = Ok p.2)
             sfile sp500 ->
     load_files float_of_string gfile sfile = load_data goog sp500).
Proof.
  split.
  - intros r text [Hin|Hin]%elem_of_app Htext Hr; unfold load_files.
    + destruct (read_prices_Raise gfile r text Hin Htext Hr) as [e ->]. by exists e.
    + destruct (read_prices float_of_string gfile) as [goog|e]; [|by exists e].
      destruct (read_prices_Raise sfile r text Hin Htext Hr) as [e ->]. by exists e.
  - intros goog sp500 Hg%read_prices_Ok Hs%read_prices_Ok.
    unfold load_files. by rewrite Hg, Hs.
Qed.

End ReadingFacts.

Lemma load_files_prices_witness :
  (exists e, load_files sample_float_of_string
               [(Some "01/01/2020", Some "1,5"); (Some "02/01/2020", Some "1.234,56")]
               [(Some "01/01/2020", Some "1.5")] = Raise e) /\
  load_files sample_float_of_string
    [(Some "01/01/2020", Some "1,5"); (Some "02/01/2020", None)]
    [(Some "01/01/2020", Some "1.5")]
    = load_data [(Some "01/01/2020", 1.5%float); (Some "02/01/2020", nan)]
                [(Some "01/01/2020", 1.5%float)].
Proof.
  split.
  - apply (proj1 (load_files_prices sample_float_of_string
                    [(Some "01/01/2020", Some "1,5"); (Some "02/01/2020", Some "1.234,56")]
                    [(Some "01/01/2020", Some "1.5")])
             (Some "02/01/2020", Some "1.234,56") "1.234,56").
    + apply elem_of_app. left. right. left.
    + done.
    + intros x. discriminate.
  - apply (proj2 (load_files_prices sample_float_of_string
                    [(Some "01/01/2020", Some "1,5"); (Some "02/01/2020", None)]
                    [(Some "01/01/2020", Some "1.5")])).
    + repeat constructor.
    + repeat constructor.
Defined.

(** ** prepare_features: a column that is not there *)

Lemma get_col_missing cols name :
  name ∉ cols.*1 -> get_col cols name = Raise "KeyError".
Proof.
  induction cols as [|[n s] cols IH]; simpl; [done|].
  intros Hnot. rewrite decide_False by (intros ->; apply Hnot; left).
  apply IH. intros Hin. apply Hnot. by right.
Qed.

Lemma float_col_missing df name :
  name ∉ (columns df).*1 -> float_col df name = Raise "KeyError".
Proof. intros H. unfold float_col. by rewrite get_col_missing. Qed.

(** [prepare_features] reads [goog_ret] whatever the lags (lines 57 and 59)
    and [sp_ret] only inside the loop over the lags (line 58): without a
    column [goog_ret] it raises [KeyError]; without [sp_ret] it raises
    [KeyError] as soon as there is a lag, and returns normally when there is
    none. *)
Theorem prepare_features_missing_column df lags :
  ("goog_ret" ∉ (columns df).*1 -> prepare_features df lags = Raise "KeyError") /\
  (forall g, float_col df "goog_ret" = Ok g -> "sp_ret" ∉ (columns df).*1 ->
     if decide (lags = []) then exists out, prepare_features df lags = Ok (out, [])
     else prepare_features df lags = Raise "KeyError").
Proof.
  split.
  - intros H%float_col_missing. unfold prepare_features.
    destruct lags as [|k lags]; simpl; [by rewrite H|].
    unfold add_lag. by rewrite H.
  - intros g Hg H%float_col_missing. unfold prepare_features.
    destruct lags as [|k lags]; simpl.
    + rewrite Hg. simpl. by eexists.
    + unfold add_lag. rewrite Hg. simpl.
      rewrite float_col_set_col_ne, H; [done|].
      destruct (goog_lag_fresh k) as (_ & F & _). exact F.
Qed.

Lemma prepare_features_missing_column_witness :
  prepare_features (mkFrame 1 [("sp_ret", FloatCol [0.5%float])]) [1]
    = Raise "KeyError" /\
  (exists out, prepare_features (mkFrame 1 [("goog_ret", FloatCol [0.5%float])]) []
               = Ok (out, [])) /\
  prepare_features (mkFrame 1 [("goog_ret", FloatCol [0.5%float])]) [1]
    = Raise "KeyError".
Proof.
  split; [|split].
  - apply (proj1 (prepare_features_missing_column _ [1])).
    by intros ?%list_elem_of_singleton.
  - apply (proj2 (prepare_features_missing_column
                    (mkFrame 1 [("goog_ret", FloatCol [0.5%float])]) [])
             [0.5%float] eq_refl).
    by intros ?%list_elem_of_singleton.
  - apply (proj2 (prepare_features_missing_column
                    (mkFrame 1 [("goog_ret", FloatCol [0.5%float])]) [1])
             [0.5%float] eq_refl).
    by intros ?%list_elem_of_singleton.
Defined.

(** ** prepare_features: any positive lags *)

(** The rows line 60 keeps are the first [N - max(lags)], none when the
    longest lag reaches the length of the frame. *)
Lemma prepare_features_kept df g s lags :
  well_formed df -> complete df ->
  float_col df "goog_ret" = Ok g -> float_col df "sp_ret" = Ok s ->
  Forall (fun k => 0 < k) lags ->
  exists df1,
    for_each add_lag lags df = Ok df1 /\
    lagged df g s (reverse lags ++ []) df1 /\
    keep_mask (with_label df1 g) =
      replicate (nrows df - Z.to_nat (max_lag lags)) true
        ++ replicate (nrows df - (nrows df - Z.to_nat (max_lag lags))) false.
Proof.
  intros Hwf Hcomp Hg Hs Hpos.
  destruct (for_each_add_lag df g s lags [] df (lagged_start _ _ _ Hg Hs))
    as (df1 & E & L).
  exists df1. split; [done|]. split; [done|].
  pose proof (well_formed_with_label _ _ _ _ _ Hwf Hg Hs L) as Hwf2.
  destruct L as (Hn & Hg1 & Hs1 & Hk & Hc).
  pose proof (float_col_length _ _ _ Hwf Hg) as Hlg.
  pose proof (float_col_length _ _ _ Hwf Hs) as Hls.
  pose proof (fun j x => float_col_complete df "goog_ret" g j x Hwf Hcomp Hg) as Hgn.
  pose proof (fun j x => float_col_complete df "sp_ret" s j x Hwf Hcomp Hs) as Hsn.
  assert (forall k, k ∈ reverse lags ++ [] -> 0 < k <= max_lag lags) as Hin.
  { intros k Hk'. rewrite app_nil_r, elem_of_reverse in Hk'. split.
    - exact (proj1 (Forall_forall _ _) Hpos k Hk').
    - by apply max_lag_ge. }
  pose proof (length_keep_mask _ Hwf2) as Hlen. simpl in Hlen. rewrite Hn in Hlen.
  set (a := (nrows df - Z.to_nat (max_lag lags))%nat).
  replace (nrows df - a)%nat with (length (keep_mask (with_label df1 g)) - a)%nat
    by lia.
  apply mask_is_prefix; [lia|]. intros i Hi.
  rewrite keep_mask_lookup by (simpl; lia || done). split.
  - intros Hall. destruct (decide (lags = [])) as [->|Hne]; [simpl in *; lia|].
    pose proof (max_lag_elem_of lags Hne Hpos) as Hm.
    destruct (Hin (max_lag lags)) as [Hm0 _].
    { rewrite app_nil_r, elem_of_reverse. done. }
    destruct (Hk (max_lag lags)) as [Hkg _].
    { rewrite app_nil_r, elem_of_reverse. done. }
    specialize (Hall (goog_lag (max_lag lags), FloatCol (shift (- max_lag lags) g))).
    simpl in Hall. assert ((i + Z.to_nat (max_lag lags) < length g)%nat); [|lia].
    apply (notna_shift_up g _ i Hm0); [lia|done|]. apply Hall.
    apply get_col_elem_of. simpl.
    rewrite get_col_set_cols_ne
      by (intros ?; destruct (goog_lag_fresh (max_lag lags)) as (_ & _ & F); by apply F).
    by apply float_col_get_col.
  - intros Hia c [Hc1| ->]%elem_of_set_cols; [|simpl].
    + destruct (Hc c Hc1) as [H0|(k & Hk' & [->| ->])].
      * apply (complete_lookup df); [done..|lia].
      * destruct (Hin k Hk'). apply notna_shift_up; [done|lia|done|lia].
      * destruct (Hin k Hk'). apply notna_shift_up; [done|lia|done|lia].
    + rewrite list_lookup_fmap.
      destruct (lookup_lt_is_Some_2 (up <$> g) i) as [x ->]; [|done].
      rewrite length_fmap. lia.
Qed.

Lemma int_col_dropna df name ys :
  int_col df name = Ok ys -> int_col (dropna df) name = Ok (select (keep_mask df) ys).
Proof.
  unfold int_col, dropna. simpl. rewrite get_col_fmap.
  destruct (get_col (columns df) name) as [[xs|xs|xs]|e]; simpl; try done.
  by intros [= ->].
Qed.

Lemma int_col_with_label df1 g : int_col (with_label df1 g) "goog_up" = Ok (up <$> g).
Proof. unfold int_col, with_label, set_col. simpl. by rewrite get_col_set_cols_eq. Qed.

Lemma prepare_features_result df g s lags :
  well_formed df -> complete df ->
  float_col df "goog_ret" = Ok g -> float_col df "sp_ret" = Ok s ->
  Forall (fun k => 0 < k) lags ->
  exists df1,
    prepare_features df lags =
      Ok (dropna (with_label df1 g), (goog_lag <$> lags) ++ (sp_lag <$> lags)) /\
    lagged df g s (reverse lags ++ []) df1 /\
    well_formed (with_label df1 g) /\
    nrows (dropna (with_label df1 g)) = (nrows df - Z.to_nat (max_lag lags))%nat /\
    int_col (dropna (with_label df1 g)) "goog_up" =
      Ok (take (nrows df - Z.to_nat (max_lag lags)) (up <$> g)) /\
    forall name xs, float_col (with_label df1 g) name = Ok xs ->
      float_col (dropna (with_label df1 g)) name =
        Ok (take (nrows df - Z.to_nat (max_lag lags)) xs).
Proof.
  intros Hwf Hcomp Hg Hs Hpos.
  destruct (prepare_features_kept df g s lags) as (df1 & E & L & Hmask); [done..|].
  exists df1. split.
  { apply prepare_features_unfold; [done|]. by destruct L as (_ & ? & _). }
  split; [done|]. split; [by eapply well_formed_with_label|]. split; [|split].
  - simpl. by rewrite Hmask, count_prefix.
  - rewrite (int_col_dropna _ _ _ (int_col_with_label df1 g)), Hmask.
    by rewrite select_prefix.
  - intros name xs Hx. rewrite (float_col_dropna _ _ _ Hx), Hmask.
    by rewrite select_prefix.
Qed.

(** ** The feature matrix, [df[features].values] *)

Lemma row_values_cells df features i acc :
  (forall name, name ∈ features -> is_Some (cell df name i)) ->
  exists row,
    for_each (fun row name =>
                xs ← float_col df name;
                match xs !! i with
                | Some x => Ok (row ++ [x])
                | None => Raise "IndexError"
                end) features acc = Ok (acc ++ row) /\
    Forall2 (fun name x => cell df name i = Some x) features row.
Proof.
  revert acc. induction features as [|name features IH]; intros acc H.
  - exists []. split; [by rewrite app_nil_r|constructor].
  - destruct (H name) as [x Hx]; [left|].
    destruct (IH (acc ++ [x])) as (row & E & F).
    { intros n Hn. apply H. by right. }
    exists (x :: row). split; [|by constructor].
    simpl. unfold cell in Hx. destruct (float_col df name) as [xs|]; [|done].
    simpl. rewrite Hx, E. by rewrite <- (assoc_L (++)).
Qed.

Lemma values_rows df features n start acc :
  (forall i name, (start <= i < start + n)%nat -> name ∈ features ->
     is_Some (cell df name i)) ->
  exists X,
    for_each (fun rows i => row ← row_values df features i; Ok (rows ++ [row]))
             (seq start n) acc = Ok (acc ++ X) /\
    length X = n /\
    forall i row, X !! i = Some row ->
      Forall2 (fun name x => cell df name (start + i) = Some x) features row.
Proof.
  revert start acc. induction n as [|n IH]; intros start acc H.
  - exists []. split; [by rewrite app_nil_r|]. split; [done|]. by intros i row.
  - destruct (row_values_cells df features start []) as (row & E & F).
    { intros name Hn. apply H; [lia|done]. }
    destruct (IH (S start) (acc ++ [row])) as (X & EX & HL & HX).
    { intros i name Hi Hn. apply H; [lia|done]. }
    exists (row :: X). split; [|split].
    + simpl in E. change (seq start (S n)) with (start :: seq (S start) n).
      change (for_each ?f (?x :: ?l) ?a) with
        (match f a x with Ok a' => for_each f l a' | Raise e => Raise e end).
      unfold row_values at 1. rewrite E.
      etrans; [exact EX|]. by rewrite <- (assoc_L (++)).
    + simpl. by rewrite HL.
    + intros [|i] r; simpl.
      * intros [= <-]. by rewrite Nat.add_0_r.
      * intros Hr. replace (start + S i)%nat with (S start + i)%nat by lia. eauto.
Qed.

Lemma values_cells df features :
  (forall i name, (i < nrows df)%nat -> name ∈ features -> is_Some (cell df name i)) ->
  exists X,
    values df features = Ok X /\ length X = nrows df /\
    forall i row, X !! i = Some row ->
      Forall2 (fun name x => cell df name i = Some x) features row.
Proof.
  intros H. destruct (values_rows df features (nrows df) 0 []) as (X & E & HL & HX).
  { intros i name Hi. apply H. lia. }
  exists X. split; [exact E|]. split; [done|]. intros i row Hr. exact (HX i row Hr).
Qed.

Lemma prepare_features_feature_cells df g s lags df1 name i :
  well_formed df -> float_col df "goog_ret" = Ok g -> float_col df "sp_ret" = Ok s ->
  lagged df g s (reverse lags ++ []) df1 ->
  (forall name xs, float_col (with_label df1 g) name = Ok xs ->
     float_col (dropna (with_label df1 g)) name =
       Ok (take (nrows df - Z.to_nat (max_lag lags)) xs)) ->
  name ∈ (goog_lag <$> lags) ++ (sp_lag <$> lags) ->
  (i < nrows df - Z.to_nat (max_lag lags))%nat ->
  is_Some (cell (dropna (with_label df1 g)) name i).
Proof.
  intros Hwf Hg Hs (_ & _ & _ & Hk & _) Hcol Hin Hi.
  pose proof (float_col_length _ _ _ Hwf Hg) as Hlg.
  pose proof (float_col_length _ _ _ Hwf Hs) as Hls.
  assert (exists xs, float_col (with_label df1 g) name = Ok xs /\ length xs = nrows df)
    as (xs & Hx & Hlen).
  { apply elem_of_app in Hin as [Hin|Hin];
      apply list_elem_of_fmap in Hin as (k & -> & Hk');
      (destruct (Hk k) as [Hkg Hks]; [by rewrite app_nil_r, elem_of_reverse|]).
    - exists (shift (- k) g). rewrite float_col_with_label, length_shift; [done|].
      by destruct (goog_lag_fresh k) as (_ & _ & F).
    - exists (shift (- k) s). rewrite float_col_with_label, length_shift; [done|].
      by destruct (sp_lag_fresh k) as (_ & _ & F). }
  unfold cell. rewrite (Hcol _ _ Hx), lookup_take_lt by done.
  apply lookup_lt_is_Some_2. lia.
Qed.

(** Lines 111-113: for positive lags and a frame with nothing missing,
    [prepare_features] never raises, also when the frame is shorter than the
    longest lag.  Of the frame it returns, [df[features].values] is a matrix
    with one row per row of the frame and two entries per lag, the cells of
    the named columns in the order of the names, none of them missing; the
    label column has one entry per row, 1 where the row's own [goog_ret] is
    not below zero and 0 where it is. *)
Theorem prepare_features_matrix df g s lags :
  well_formed df -> complete df ->
  float_col df "goog_ret" = Ok g -> float_col df "sp_ret" = Ok s ->
  Forall (fun k => 0 < k) lags ->
  exists out names X y,
    prepare_features df lags = Ok (out, names) /\
    nrows out = (nrows df - Z.to_nat (max_lag lags))%nat /\
    values out names = Ok X /\ int_col out "goog_up" = Ok y /\
    length X = nrows out /\ length y = nrows out /\
    (forall i row, X !! i = Some row ->
       length row = (2 * length lags)%nat /\
       Forall2 (fun name x => cell out name i = Some x /\ is_nan x = false) names row) /\
    (forall i, (i < nrows out)%nat ->
       exists r, cell out "goog_ret" i = Some r /\
                 y !! i = Some (if (0 <=? r)%float then 1 else 0)).
Proof.
  intros Hwf Hcomp Hg Hs Hpos.
  destruct (prepare_features_result df g s lags)
    as (df1 & E & L & Hwf2 & Hrows & Hy & Hcol); [done..|].
  pose proof (float_col_length _ _ _ Hwf Hg) as Hlg.
  set (out := dropna (with_label df1 g)) in *.
  set (names := (goog_lag <$> lags) ++ (sp_lag <$> lags)) in *.
  assert (well_formed out) as Hwo by by apply well_formed_dropna.
  assert (complete out) as Hco by by apply complete_dropna.
  destruct (values_cells out names) as (X & EX & HL & HX).
  { intros i name Hi Hin. rewrite Hrows in Hi.
    exact (prepare_features_feature_cells df g s lags df1 name i
             Hwf Hg Hs L Hcol Hin Hi). }
  exists out, names, X, (take (nrows df - Z.to_nat (max_lag lags)) (up <$> g)).
  split; [done|]. split; [done|]. split; [done|]. split; [done|].
  split; [done|]. split; [rewrite length_take, length_fmap; lia|]. split.
  - intros i row Hr. specialize (HX i row Hr). split.
    + rewrite <- (Forall2_length _ _ _ HX). unfold names.
      rewrite length_app, !length_fmap. lia.
    + eapply Forall2_impl; [exact HX|]. intros name x Hx. split; [done|].
      unfold cell in Hx. destruct (float_col out name) as [xs|] eqn:Exs; [|done].
      by eapply (float_col_complete out).
  - intros i Hi. rewrite Hrows in Hi.
    destruct (lookup_lt_is_Some_2 g i) as [r Hr]; [lia|].
    exists r. split.
    + unfold cell. rewrite (Hcol "goog_ret" g).
      * by rewrite lookup_take_lt.
      * rewrite float_col_with_label by done. by destruct L as (_ & ? & _).
    + rewrite lookup_take_lt, list_lookup_fmap, Hr by done. done.
Qed.

Lemma prepare_features_matrix_witness :
  exists out names X y,
    prepare_features sample_frame [2; 1] = Ok (out, names) /\
    nrows out = (nrows sample_frame - Z.to_nat (max_lag [2%Z; 1%Z]))%nat /\
    values out names = Ok X /\ int_col out "goog_up" = Ok y /\
    length X = nrows out /\ length y = nrows out /\
    (forall i row, X !! i = Some row ->
       length row = (2 * length [2%Z; 1%Z])%nat /\
       Forall2 (fun name x => cell out name i = Some x /\ is_nan x = false) names row) /\
    (forall i, (i < nrows out)%nat ->
       exists r, cell out "goog_ret" i = Some r /\
                 y !! i = Some (if (0 <=? r)%float then 1 else 0)).
Proof.
  apply (prepare_features_matrix sample_frame
           [0.25; 0.5; -0.25; -0.5]%float [-0.125; 0.125; 0.75; -0.75]%float).
  - repeat constructor.
  - repeat constructor.
  - reflexivity.
  - reflexivity.
  - repeat constructor.
Defined.

(** ** The calendar columns *)

Lemma well_formed_set_col df name s :
  well_formed df -> series_len s = nrows df -> well_formed (set_col df name s).
Proof.
  intros Hwf Hs. apply Forall_forall. intros c [Hc| ->]%elem_of_set_cols; simpl.
  - exact (proj1 (Forall_forall _ _) Hwf c Hc).
  - done.
Qed.

Lemma complete_set_col df name s :
  complete df -> Forall (fun b => b = true) (notna s) -> complete (set_col df name s).
Proof.
  intros Hc Hs. apply Forall_forall. intros c [Hin| ->]%elem_of_set_cols; simpl.
  - exact (proj1 (Forall_forall _ _) Hc c Hin).
  - done.
Qed.

Lemma notna_IntCol (xs : list Z) : Forall (fun b => b = true) (notna (IntCol xs)).
Proof. simpl. apply Forall_fmap, Forall_forall. done. Qed.

Lemma dt_field_dates f (d : list Timestamp) : dt_field f (Some <$> d) = IntCol (f <$> d).
Proof. unfold dt_field. by rewrite (mapM_fmap_Some id Some d). Qed.

Lemma add_calendar_Ok df d :
  date_col df = Ok (Some <$> d) ->
  add_calendar df =
    Ok (set_col (set_col df "Weekday" (IntCol (dayofweek <$> d)))
                "Month" (IntCol (month <$> d))).
Proof.
  intros Hd.
  assert (date_col (set_col df "Weekday" (IntCol (dayofweek <$> d))) = Ok (Some <$> d))
    as Hd1.
  { unfold date_col in *. simpl. by rewrite get_col_set_cols_ne. }
  unfold add_calendar. rewrite Hd. unfold mbind at 1, result_bind.
  rewrite dt_field_dates, Hd1. unfold mbind, result_bind.
  by rewrite dt_field_dates.
Qed.

(** Lines 96-97 on a frame whose [Date] column holds dates, none missing:
    two integer columns are stored, each row's [Weekday] and [Month] read
    from that row's own [Date]; the number of rows and every other column
    stay as they were, and a frame with equal column lengths and nothing
    missing stays one. *)
Theorem add_calendar_keeps_frame df d :
  well_formed df -> date_col df = Ok (Some <$> d) ->
  exists cal,
    add_calendar df = Ok cal /\
    nrows cal = nrows df /\ well_formed cal /\ (complete df -> complete cal) /\
    (forall name, name <> "Weekday" -> name <> "Month" ->
       get_col (columns cal) name = get_col (columns df) name) /\
    (exists wd mo,
       int_col cal "Weekday" = Ok wd /\ int_col cal "Month" = Ok mo /\
       forall i, (i < nrows df)%nat ->
         exists t, d !! i = Some t /\
                   wd !! i = Some (dayofweek t) /\ mo !! i = Some (month t)).
Proof.
  intros Hwf Hd. eexists. split; [by apply add_calendar_Ok|].
  assert (length d = nrows df) as Hlen.
  { unfold date_col in Hd.
    destruct (get_col (columns df) "Date") as [[xs|xs|xs]|e] eqn:E; simplify_eq.
    pose proof (proj1 (Forall_forall _ _) Hwf _ (get_col_elem_of _ _ _ E)) as H.
    simpl in H. by rewrite length_fmap in H. }
  split; [done|]. split.
  { apply well_formed_set_col; [apply well_formed_set_col; [done|]|];
      simpl; by rewrite length_fmap. }
  split.
  { intros Hc. apply complete_set_col; [apply complete_set_col; [done|]|];
      apply notna_IntCol. }
  split.
  { intros name H1 H2. simpl. by rewrite !get_col_set_cols_ne. }
  exists (dayofweek <$> d), (month <$> d). split; [|split].
  - unfold int_col. simpl.
    by rewrite get_col_set_cols_ne, get_col_set_cols_eq.
  - unfold int_col. simpl. by rewrite get_col_set_cols_eq.
  - intros i Hi. destruct (lookup_lt_is_Some_2 d i) as [t Ht]; [lia|].
    exists t. by rewrite !list_lookup_fmap, Ht.
Qed.

Lemma add_calendar_keeps_frame_witness :
  exists cal,
    add_calendar sample_frame = Ok cal /\
    nrows cal = nrows sample_frame /\ well_formed cal /\
    (complete sample_frame -> complete cal) /\
    (forall name, name <> "Weekday" -> name <> "Month" ->
       get_col (columns cal) name = get_col (columns sample_frame) name) /\
    (exists wd mo,
       int_col cal "Weekday" = Ok wd /\ int_col cal "Month" = Ok mo /\
       forall i, (i < nrows sample_frame)%nat ->
         exists t, [18265; 18264; 18263; 18262] !! i = Some t /\
                   wd !! i = Some (dayofweek t) /\ mo !! i = Some (month t)).
Proof.
  apply (add_calendar_keeps_frame sample_frame).
  - repeat constructor.
  - reflexivity.
Defined.

(** ** The month of a parsed date *)

Lemma year_of_era yoe doy :
  0 <= yoe < 400 -> 0 <= doy < 366 ->
  (doy = 365 -> (yoe + 1) mod 4 = 0 /\
                ((yoe + 1) mod 100 <> 0 \/ (yoe + 1) mod 400 = 0)) ->
  let doe := yoe * 365 + yoe / 4 - yoe / 100 + doy in
  0 <= doe < 146097 /\
  (doe - doe / 1460 + doe / 36524 - doe / 146096) / 365 = yoe.
Proof. intros Hy Hd Hl. simpl. Z.div_mod_to_equations. lia. Qed.

Lemma month_days_from_civil y m d :
  1 <= m <= 12 -> 1 <= d <= days_in_month y m ->
  month (days_from_civil y m d) = m.
Proof.
  intros Hm Hd. unfold days_in_month, is_leap in Hd.
  assert (m = 1 \/ m = 2 \/ m = 3 \/ m = 4 \/ m = 5 \/ m = 6 \/ m = 7 \/ m = 8 \/
          m = 9 \/ m = 10 \/ m = 11 \/ m = 12) as Hcases by lia.
  unfold days_from_civil.
  set (y' := if decide (m <= 2) then y - 1 else y).
  set (era := y' / 400). set (yoe := y' - era * 400).
  set (doy := (153 * (m + (if decide (2 < m) then -3 else 9)) + 2) / 5 + d - 1).
  assert (0 <= yoe < 400) as Hyoe by (unfold yoe, era; Z.div_mod_to_equations; lia).
  assert (0 <= doy < 366 /\
          (doy = 365 -> (yoe + 1) mod 4 = 0 /\
                        ((yoe + 1) mod 100 <> 0 \/ (yoe + 1) mod 400 = 0)) /\
          (5 * doy + 2) / 153 = m + (if decide (2 < m) then -3 else 9))
    as (Hdoy & Hleap & Hmp).
  { unfold doy, yoe, era, y'.
    destruct Hcases as [->|[->|[->|[->|[->|[->|[->|[->|[->|[->|[->| ->]]]]]]]]]]];
      simpl in *; try (case_bool_decide; simpl in * );
      Z.div_mod_to_equations; lia. }
  destruct (year_of_era yoe doy Hyoe Hdoy Hleap) as [Hdoe Hrec].
  set (doe := yoe * 365 + yoe / 4 - yoe / 100 + doy) in *.
  assert (forall t, t = doe + era * 146097 - 719468 -> month t = m) as H;
    [|by apply H; lia].
  intros t ->. unfold month. cbv zeta.
  replace (doe + era * 146097 - 719468 + 719468) with (doe + era * 146097) by lia.
  rewrite Z.div_add by lia. rewrite (Z.div_small doe) by lia.
  replace (doe + era * 146097 - (0 + era) * 146097) with doe by lia.
  rewrite Hrec.
  replace (doe - (365 * yoe + yoe / 4 - yoe / 100)) with doy by (unfold doe; lia).
  rewrite Hmp. repeat case_decide; lia.
Qed.

(** Lines 47 and 97 together: a text that line 47 reads as a date has three
    fields separated by slashes, and the [Month] that line 97 computes from
    the date is the number in the second field, the month as written, between
    1 and 12; the [Weekday] of line 96 is between 0 and 6. *)
Theorem month_of_parsed_date text t :
  to_datetime text = Ok t ->
  exists ds ms ys m,
    fields "/" text = [ds; ms; ys] /\ number [1; 2]%nat ms = Some m /\
    month t = m /\ 1 <= m <= 12 /\ 0 <= dayofweek t <= 6.
Proof.
  unfold to_datetime. intros H.
  destruct (fields "/" text) as [|ds [|ms [|ys [|? ?]]]]; try done.
  destruct (number [1; 2]%nat ds) as [d|]; [|done].
  destruct (number [1; 2]%nat ms) as [m|] eqn:Em; [|done].
  destruct (number [4%nat] ys) as [y|]; [|done].
  case_decide as Hv; [|done]. injection H as <-.
  destruct Hv as (Hy & Hm & Hd).
  exists ds, ms, ys, m. split; [done|]. split; [done|].
  split; [by apply month_days_from_civil|]. split; [done|].
  unfold dayofweek.
  pose proof (Z.mod_pos_bound (days_from_civil y m d + 3) 7). lia.
Qed.

Lemma month_of_parsed_date_witness :
  exists ds ms ys m,
    fields "/" "29/02/2020" = [ds; ms; ys] /\ number [1; 2]%nat ms = Some m /\
    month 18321 = m /\ 1 <= m <= 12 /\ 0 <= dayofweek 18321 <= 6.
Proof. apply (month_of_parsed_date "29/02/2020" 18321). reflexivity. Defined.

(** ** From the price tables to the feature matrix *)

(** Lines 73, 96-97 and 111-113 together: whatever frame [load_data]
    returns, storing the calendar columns in it, [prepare_features] for
    positive lags and the two reads that follow it do not raise; the matrix
    and the label vector have the same number of rows, at most the size of
    the inner join less one and less the longest lag. *)
Theorem load_data_then_prepare_features goog sp500 df lags :
  load_data goog sp500 = Ok df -> Forall (fun k => 0 < k) lags ->
  exists cal out names X y,
    add_calendar df = Ok cal /\
    prepare_features cal lags = Ok (out, names) /\
    values out names = Ok X /\ int_col out "goog_up" = Ok y /\
    length X = length y /\
    Z.of_nat (length X)
      <= Z.max 0 (Z.of_nat (length (merge goog sp500)) - 1 - max_lag lags).
Proof.
  intros (dated & Hparse & ->)%load_data_priced Hpos.
  set (J := sort_values_desc dated).
  pose proof (dropna_priced_rows J) as Hrows.
  unfold J in Hrows at 2. rewrite (length_sorted_join _ _ _ Hparse) in Hrows.
  set (df := dropna (priced J)) in *.
  set (g := select (keep_mask (priced J)) (pct_change (J.*2.*1))).
  set (s := select (keep_mask (priced J)) (pct_change (J.*2.*2))).
  set (dates := select (keep_mask (priced J)) (J.*1)).
  assert (well_formed df) as Hwf0 by apply well_formed_dropna, well_formed_priced.
  assert (complete df) as Hcomp0 by apply complete_dropna, well_formed_priced.
  assert (exists d, dates = Some <$> d) as [d Hdates].
  { pose proof (proj1 (Forall_forall _ _) Hcomp0 ("Date", DateCol dates) ltac:(left))
      as Hall.
    simpl in Hall. clearbody dates. clear -Hall.
    induction dates as [|[t|] dates IH]; [by exists []| |].
    - apply Forall_cons in Hall as [_ Hall]. destruct (IH Hall) as [d ->].
      by exists (t :: d).
    - by apply Forall_cons in Hall as [? _]. }
  assert (date_col df = Ok (Some <$> d)) as Hdc by (by rewrite <- Hdates).
  set (cal := set_col (set_col df "Weekday" (IntCol (dayofweek <$> d)))
                      "Month" (IntCol (month <$> d))).
  assert (length d = nrows df) as Hd.
  { pose proof (proj1 (Forall_forall _ _) Hwf0 ("Date", DateCol dates) ltac:(left))
      as Hlen.
    simpl in Hlen. by rewrite Hdates, length_fmap in Hlen. }
  assert (well_formed cal) as Hwf.
  { apply well_formed_set_col; [apply well_formed_set_col; [done|]|];
      simpl; by rewrite length_fmap. }
  assert (complete cal) as Hcomp.
  { apply complete_set_col; [apply complete_set_col|]; try apply notna_IntCol.
    done. }
  assert (float_col cal "goog_ret" = Ok g) as Hg by done.
  assert (float_col cal "sp_ret" = Ok s) as Hs by done.
  destruct (prepare_features_result cal g s lags Hwf Hcomp Hg Hs Hpos)
    as (df1 & E & L & Hwf2 & Hn & Hy & Hcol).
  pose proof (float_col_length _ _ _ Hwf Hg) as Hlg.
  destruct (values_cells (dropna (with_label df1 g))
              ((goog_lag <$> lags) ++ (sp_lag <$> lags))) as (X & EX & HL & _).
  { intros i name Hi Hin. rewrite Hn in Hi.
    exact (prepare_features_feature_cells cal g s lags df1 name i
             Hwf Hg Hs L Hcol Hin Hi). }
  exists cal. eexists _, _, X, _.
  split; [by apply add_calendar_Ok|].
  split; [exact E|]. split; [exact EX|]. split; [exact Hy|].
  rewrite length_take, length_fmap, HL, Hn, Hlg. split; [lia|].
  assert (0 <= max_lag lags) as Hm.
  { destruct (decide (lags = [])) as [->|Hne]; [done|].
    pose proof (max_lag_elem_of lags Hne Hpos) as Hin.
    pose proof (proj1 (Forall_forall _ _) Hpos _ Hin) as H0. simpl in H0. lia. }
  change (nrows cal) with (nrows df) in *. lia.
Qed.

Lemma load_data_then_prepare_features_witness :
  exists cal out names X y,
    add_calendar sample_aligned = Ok cal /\
    prepare_features cal [1] = Ok (out, names) /\
    values out names = Ok X /\ int_col out "goog_up" = Ok y /\
    length X = length y /\
    Z.of_nat (length X)
      <= Z.max 0 (Z.of_nat (length (merge sample_goog sample_sp500)) - 1 - max_lag [1]).
Proof.
  apply (load_data_then_prepare_features sample_goog sample_sp500).
  - exact load_data_sample.
  - repeat constructor.
Defined.


(** ** A model name outside the three *)

Lemma add_lag_well_formed df lag df' :
  well_formed df -> add_lag df lag = Ok df' -> well_formed df'.
Proof.
  intros Hwf. unfold add_lag.
  destruct (float_col df "goog_ret") as [g|] eqn:Eg; [|done]. simpl.
  assert (well_formed (set_col df (goog_lag lag) (FloatCol (shift (- lag) g)))) as Hwf1.
  { apply well_formed_set_col; [done|]. simpl.
    by rewrite length_shift, (float_col_length _ _ _ Hwf Eg). }
  destruct (float_col _ "sp_ret") as [s|] eqn:Es; [|done]. simpl. intros [= <-].
  apply well_formed_set_col; [done|]. simpl.
  by rewrite length_shift, (float_col_length _ _ _ Hwf1 Es).
Qed.

Lemma prepare_features_well_formed df lags out names :
  well_formed df -> prepare_features df lags = Ok (out, names) -> well_formed out.
Proof.
  intros Hwf. unfold prepare_features.
  destruct (for_each add_lag lags df) as [df1|] eqn:E; [|done]. simpl.
  assert (well_formed df1) as Hwf1.
  { revert df Hwf E. induction lags as [|k lags IH]; intros df Hwf; simpl.
    - by intros [= <-].
    - destruct (add_lag df k) as [df'|] eqn:Ek; [|done].
      apply IH. by eapply add_lag_well_formed. }
  destruct (float_col df1 "goog_ret") as [g|] eqn:Eg; [|done]. simpl. intros [= <- _].
  apply well_formed_dropna, well_formed_set_col; [done|]. simpl.
  by rewrite length_fmap, (float_col_length _ _ _ Hwf1 Eg).
Qed.

Lemma values_length df features X : values df features = Ok X -> length X = nrows df.
Proof.
  unfold values.
  assert (forall n start acc,
            for_each (fun rows i => row ← row_values df features i; Ok (rows ++ [row]))
                     (seq start n) acc = Ok X ->
            length X = (length acc + n)%nat) as H.
  { induction n as [|n IH]; intros start acc; simpl.
    - intros [= <-]. lia.
    - destruct (row_values df features start) as [row|]; [|done]. simpl.
      intros ->%IH. rewrite length_app. simpl. lia. }
  intros ->%H. done.
Qed.

Lemma int_col_length df name y :
  well_formed df -> int_col df name = Ok y -> length y = nrows df.
Proof.
  intros Hwf. unfold int_col.
  destruct (get_col (columns df) name) as [[xs|xs|xs]|] eqn:E; try done.
  intros [= <-]. exact (proj1 (Forall_forall _ _) Hwf _ (get_col_elem_of _ _ _ E)).
Qed.

Lemma take_rows_in_range {A} (xs : list A) index :
  Forall (fun i => 0 <= i < Z.of_nat (length xs)) index ->
  exists out, take_rows xs index = Ok out.
Proof.
  induction 1 as [|i index Hi _ [out IH]]; simpl; [by eexists|]. simpl in Hi.
  rewrite (decide_False (P := i < 0)) by lia.
  rewrite (decide_True (P := 0 <= i)) by lia.
  destruct (lookup_lt_is_Some_2 xs (Z.to_nat i)) as [x ->]; [lia|].
  rewrite IH. by eexists.
Qed.

Lemma split_in_range k N folds fold :
  split k N = Ok folds -> fold ∈ folds ->
  Forall (fun i => 0 <= i < N) (train_index fold) /\
  Forall (fun i => 0 <= i < N) (test_index fold).
Proof.
  unfold split. case_decide; [done|]. intros [= <-].
  intros (start & -> & _)%list_elem_of_fmap. simpl.
  assert (forall a b, Forall (fun i => 0 <= i < N) (slice a b (seqZ 0 N))) as Hall.
  { intros a b. apply Forall_forall. intros i Hi. unfold slice in Hi.
    apply subseteq_take, subseteq_drop, elem_of_seqZ in Hi. lia. }
  split; apply Hall.
Qed.

Section UnknownModel.

Context {sk : Sklearn}.

Lemma select_model_unknown name w :
  (forall c, ~ selects name c) -> select_model name w = (Ok None, w).
Proof.
  intros H. unfold select_model, selects in *.
  repeat case_decide; try done; exfalso; eapply H; eauto.
Qed.

(** Without a model the loop stops at the first [model.fit]. *)
Lemma for_loop_None X y folds acc w :
  length y = length X ->
  Forall (fun fold =>
            Forall (fun i => 0 <= i < Z.of_nat (length X)) (train_index fold) /\
            Forall (fun i => 0 <= i < Z.of_nat (length X)) (test_index fold)) folds ->
  for_loop (fold_step None X y) folds acc w =
    match folds with
    | [] => (Ok acc, w)
    | _ :: _ => (Raise "AttributeError", w)
    end.
Proof.
  intros Hlen Hfolds. destruct Hfolds as [|fold folds [Htrain Htest] _]; [done|].
  simpl. unfold bind. rewrite fold_step_unfold.
  destruct (take_rows_in_range X _ Htrain) as [? ->].
  destruct (take_rows_in_range X _ Htest) as [? ->].
  rewrite <- Hlen in Htrain, Htest.
  destruct (take_rows_in_range y _ Htrain) as [? ->].
  destruct (take_rows_in_range y _ Htest) as [? ->].
  done.
Qed.

(** [select_model] has no branch for a name outside its three and returns
    [None] for it (lines 64-70).  The run then never returns a report, and
    it creates no model instance and fits nothing: it raises what the first
    failing step before the loop raises (the features, the reads of [X] and
    [y], the splitter and its split), and when none of them fails it raises
    [AttributeError] at the first [model.fit]. *)
Theorem unknown_model_never_fits cfg df w :
  (forall c, ~ selects (model_type cfg) c) -> well_formed df ->
  (evaluate cfg df w).2 = w /\
  (evaluate cfg df w).1 =
    match data_steps cfg df with
    | Ok _ => Raise "AttributeError"
    | Raise e => Raise e
    end.
Proof.
  intros Hname Hwf. rewrite evaluate_unfold. unfold data_steps.
  destruct (prepare_features df (lags cfg)) as [[out names]|e] eqn:E1; [|split; reflexivity].
  pose proof (prepare_features_well_formed _ _ _ _ Hwf E1) as Hwo.
  cbn [mbind result_bind fst snd].
  destruct (values out names) as [X|e] eqn:E2; [|split; reflexivity].
  destruct (int_col out "goog_up") as [y|e] eqn:E3; [|split; reflexivity].
  destruct (TimeSeriesSplit (splits cfg)) as [tscv|e] eqn:E4; [|split; reflexivity].
  cbn [mbind result_bind].
  assert (bind (select_model (model_type cfg)) (with_model cfg X y tscv) w
          = with_model cfg X y tscv None w) as ->
    by (unfold bind; by rewrite (select_model_unknown _ w Hname)).
  unfold with_model. rewrite !bind_lift.
  destruct (split tscv (Z.of_nat (length X))) as [folds|e] eqn:E5; [|split; reflexivity].
  cbn [mbind result_bind].
  assert (length y = length X) as Hlen.
  { by rewrite (int_col_length _ _ _ Hwo E3), (values_length _ _ _ E2). }
  unfold bind. rewrite for_loop_None; [|done|].
  - by destruct folds.
  - apply Forall_forall. intros fold Hin. by eapply split_in_range.
Qed.

End UnknownModel.

Lemma unknown_model_never_fits_witness :
  (@evaluate Majority.sklearn (mkConfig [1] "Gradient Boosting" 3) sample_series
     (@start Majority.sklearn [])).2 = @start Majority.sklearn [] /\
  (@evaluate Majority.sklearn (mkConfig [1] "Gradient Boosting" 3) sample_series
     (@start Majority.sklearn [])).1 = Raise "AttributeError".
Proof.
  apply (@unknown_model_never_fits Majority.sklearn
           (mkConfig [1] "Gradient Boosting" 3) sample_series).
  - intros c [[H _]|[[H _]|[H _]]]; discriminate.
  - repeat constructor.
Defined.

(** ** The scores of a run *)

Section Scores.

Context {sk : Sklearn}.

Lemma model_scores_Some a X y_pred w sc :
  (model_scores (Some a) X y_pred w).1 = Ok sc -> exists p, sc = Proba <$> p.
Proof.
  unfold model_scores, bind.
  destruct (deref (Some a) w) as [[ao|e] w']; [|done].
  assert (has_predict_proba (cls ao.2) = true) as -> by by destruct (cls ao.2).
  destruct (fitted ao.2 w') as [[l|e] w'']; [|done].
  unfold lift, ret. destruct (predict_proba_1 l X) as [p|e]; [|done].
  simpl. intros [= <-]. by exists p.
Qed.

Lemma after_fit_Some a X_test y_test acc w acc' :
  Forall (fun r => exists p, r.2 = Proba p) acc.2 ->
  (after_fit (Some a) X_test y_test acc w).1 = Ok acc' ->
  Forall (fun r => exists p, r.2 = Proba p) acc'.2.
Proof.
  intros Hacc. unfold after_fit. unfold bind at 1.
  destruct (model_predict (Some a) X_test w) as [[y_pred|e] w1]; [|done].
  unfold bind at 1.
  pose proof (model_scores_Some a X_test (ret y_pred) w1) as Hsc.
  destruct (model_scores (Some a) X_test (ret y_pred) w1) as [[y_proba|e] w2]; [|done].
  destruct (Hsc y_proba eq_refl) as [p ->].
  rewrite !bind_lift.
  destruct (accuracy_score y_test y_pred); [|done]. rewrite bind_lift.
  destruct (precision_score y_test y_pred); [|done]. rewrite bind_lift.
  destruct (recall_score y_test y_pred); [|done]. rewrite bind_lift.
  destruct (f1_score y_test y_pred); [|done]. rewrite bind_lift.
  destruct (roc_auc_score y_test (Proba <$> p)); [|done].
  simpl. intros [= <-]. simpl. apply Forall_app. split; [done|].
  apply Forall_forall. intros [u v] Hin. simpl.
  apply elem_of_zip_r in Hin. simpl in Hin.
  apply list_elem_of_fmap in Hin as (q & -> & _). by exists q.
Qed.

Lemma for_loop_Some a X y folds acc w acc' :
  Forall (fun r => exists p, r.2 = Proba p) acc.2 ->
  (for_loop (fold_step (Some a) X y) folds acc w).1 = Ok acc' ->
  Forall (fun r => exists p, r.2 = Proba p) acc'.2.
Proof.
  revert acc w. induction folds as [|fold folds IH]; intros acc w Hacc; simpl.
  - by intros [= <-].
  - unfold bind.
    destruct (fold_step (Some a) X y acc fold w) as [[acc1|e] w1] eqn:E; [|done].
    apply IH. assert ((fold_step (Some a) X y acc fold w).1 = Ok acc1) as E1
      by by rewrite E.
    rewrite fold_step_unfold in E1.
    destruct (take_rows X (train_index fold)); [|done].
    destruct (take_rows X (test_index fold)); [|done].
    destruct (take_rows y (train_index fold)); [|done].
    destruct (take_rows y (test_index fold)); [|done].
    unfold bind in E1. destruct (model_fit _ _ _ w) as [[[]|e] w0]; [|done].
    by eapply after_fit_Some.
Qed.

(** Lines 127 and 158 fall back on the hard prediction when the model has
    no [predict_proba].  In a run that returns its report this never
    happens: every row of the predictions table carries a probability, since
    each class [select_model] constructs has the method, and with no model
    the run does not get that far. *)
Theorem scores_are_probabilities cfg df w rep :
  (evaluate cfg df w).1 = Ok rep ->
  Forall (fun r => exists p, r.2 = Proba p) (preds_df rep).
Proof.
  rewrite evaluate_unfold.
  destruct (prepare_features df (lags cfg)) as [lagged|]; [|done].
  destruct (values _ _) as [X|]; [|done].
  destruct (int_col _ _) as [y|]; [|done].
  destruct (TimeSeriesSplit _) as [tscv|]; [|done].
  unfold bind at 1.
  destruct (select_model (model_type cfg) w) as [[[a|]|e] w0]; [| |done].
  2: { destruct (with_model_None cfg X y tscv w0) as [_ [e He]]. congruence. }
  unfold with_model. rewrite bind_lift.
  destruct (split tscv _) as [folds|]; [|done]. unfold bind at 1.
  pose proof (for_loop_Some a X y folds ([], []) w0) as Hloop.
  destruct (for_loop _ _ _ w0) as [[out|e] w1]; [|done].
  specialize (Hloop out (Forall_nil_2 _) eq_refl).
  unfold full_sample, bind.
  destruct (model_fit (Some a) X y w1) as [[[]|e] w2]; [|done].
  destruct (model_scores _ _ _ w2) as [[proba|e] w3]; [|done].
  unfold lift, ret. destruct (roc_curve y proba); [|done].
  simpl. by intros [= <-].
Qed.

End Scores.

Lemma scores_are_probabilities_witness :
  exists rep,
    (@evaluate Majority.sklearn (mkConfig [1] "Decision Tree" 2) sample_series
       (@start Majority.sklearn [])).1 = Ok rep /\
    Forall (fun r => exists p, r.2 = Proba p) (preds_df rep).
Proof.
  eexists. split; [vm_compute; reflexivity|].
  apply (@scores_are_probabilities Majority.sklearn
           (mkConfig [1] "Decision Tree" 2) sample_series (@start Majority.sklearn [])).
  vm_compute. reflexivity.
Defined.
